(** * The Electron shell and its Python worker: messaging bridge

    A shallow embedding of the Electron main process (the ZeroMQ request and
    subscriber sockets, the worker process, the IPC handlers) and of the React
    renderer's update handler ([App.jsx]).

    JavaScript strings are sequences of UTF-16 code units, Node [Buffer]s are
    byte sequences.  Calls into the runtime (console, [webContents.send],
    [spawn], [kill], the sockets) are recorded in the state they act on, so
    that "was sent", "was logged" and "was signalled" are observable. *)

From Stdlib Require Import ZArith List Bool Lia Floats.
From Stdlib Require Import Strings.String Strings.Ascii Strings.Byte.
Import ListNotations.
Local Open Scope Z_scope.
Set Warnings "-register-all".

(* ================================================================== *)
(** * Part I: the model *)
(* ================================================================== *)

(** ** JavaScript strings *)

Module JsString.

Definition code_unit := Z.
Definition jsstring := list code_unit.
Definition Buffer := list byte.

Definition byte_to_Z (b : byte) : Z := Z.of_N (Byte.to_N b).

(** A string literal of the source (its characters are ASCII). *)
Definition js (s : string) : jsstring := map byte_to_Z (list_byte_of_string s).

(** [Buffer.from(s)] for an ASCII literal [s]. *)
Definition Buffer_from (s : string) : Buffer := list_byte_of_string s.

Definition SPACE : code_unit := 32.
Definition QUOTE : code_unit := 34.
Definition APOSTROPHE : code_unit := 39.

Definition jsstring_eq_dec : forall a b : jsstring, {a = b} + {a <> b} :=
  list_eq_dec Z.eq_dec.

(** [s.split(sep)] for a separator of one code unit: the pieces between the
    occurrences of [sep]; the array always has at least one element. *)
Fixpoint split (sep : code_unit) (s : jsstring) : list jsstring :=
  match s with
  | [] => [[]]
  | c :: s' =>
      if c =? sep then [] :: split sep s'
      else match split sep s' with
           | piece :: pieces => (c :: piece) :: pieces
           | [] => [[c]]
           end
  end.

(** [parts.join(sep)] for a separator of one code unit. *)
Fixpoint join (sep : code_unit) (parts : list jsstring) : jsstring :=
  match parts with
  | [] => []
  | p :: rest =>
      match rest with
      | [] => p
      | _ :: _ => p ++ sep :: join sep rest
      end
  end.

(** [s.replace(/c/g, d)] for single characters [c] and [d]. *)
Definition replace_all (c d : code_unit) (s : jsstring) : jsstring :=
  map (fun u => if u =? c then d else u) s.

(** [a.startsWith(p)] on byte sequences. *)
Fixpoint starts_with (p f : Buffer) : bool :=
  match p, f with
  | [], _ => true
  | _ :: _, [] => false
  | x :: p', y :: f' => Byte.eqb x y && starts_with p' f'
  end.

End JsString.

(** ** [Buffer.prototype.toString()]: UTF-8 decoding with replacement *)

Module Utf8.
Import JsString.

Record Decoder := {
  code_point : Z;
  bytes_seen : Z;
  bytes_needed : Z;
  lower_boundary : Z;
  upper_boundary : Z
}.

Definition idle : Decoder :=
  {| code_point := 0; bytes_seen := 0; bytes_needed := 0;
     lower_boundary := 0x80; upper_boundary := 0xBF |}.

Definition REPLACEMENT : Z := 0xFFFD.

(** A byte read while no multi-byte sequence is open.  [None] in the output
    stands for a decoding error. *)
Definition lead (b : Z) : Decoder * list (option Z) :=
  if b <=? 0x7F then (idle, [Some b])
  else if (0xC2 <=? b) && (b <=? 0xDF) then
    ({| code_point := Z.land b 0x1F; bytes_seen := 0; bytes_needed := 1;
        lower_boundary := 0x80; upper_boundary := 0xBF |}, [])
  else if (0xE0 <=? b) && (b <=? 0xEF) then
    ({| code_point := Z.land b 0xF; bytes_seen := 0; bytes_needed := 2;
        lower_boundary := if b =? 0xE0 then 0xA0 else 0x80;
        upper_boundary := if b =? 0xED then 0x9F else 0xBF |}, [])
  else if (0xF0 <=? b) && (b <=? 0xF4) then
    ({| code_point := Z.land b 0x7; bytes_seen := 0; bytes_needed := 3;
        lower_boundary := if b =? 0xF0 then 0x90 else 0x80;
        upper_boundary := if b =? 0xF4 then 0x8F else 0xBF |}, [])
  else (idle, [None]).

(** One byte of input.  A byte that cannot continue the open sequence ends
    it with an error and is then read again as a first byte. *)
Definition feed (d : Decoder) (b : Z) : Decoder * list (option Z) :=
  if bytes_needed d =? 0 then lead b
  else if (b <? lower_boundary d) || (upper_boundary d <? b) then
    let (d', out) := lead b in (d', None :: out)
  else
    let cp := Z.lor (Z.shiftl (code_point d) 6) (Z.land b 0x3F) in
    let seen := bytes_seen d + 1 in
    if seen =? bytes_needed d then (idle, [Some cp])
    else ({| code_point := cp; bytes_seen := seen;
             bytes_needed := bytes_needed d;
             lower_boundary := 0x80; upper_boundary := 0xBF |}, []).

Fixpoint run (d : Decoder) (bs : list Z) : list (option Z) :=
  match bs with
  | [] => if bytes_needed d =? 0 then [] else [None]
  | b :: bs' => let (d', out) := feed d b in out ++ run d' bs'
  end.

Definition decode (buf : Buffer) : list (option Z) :=
  run idle (map byte_to_Z buf).

(** The buffer is well-formed UTF-8: decoding meets no error. *)
Definition valid (buf : Buffer) : bool :=
  forallb (fun o => match o with Some _ => true | None => false end)
          (decode buf).

(** The UTF-16 code units of a code point. *)
Definition utf16 (cp : Z) : jsstring :=
  if cp <? 0x10000 then [cp]
  else let c := cp - 0x10000 in
       [0xD800 + Z.shiftr c 10; 0xDC00 + Z.land c 0x3FF].

(** [buf.toString()]: never throws; each error becomes U+FFFD. *)
Definition toString (buf : Buffer) : jsstring :=
  flat_map (fun o => utf16 (match o with Some cp => cp | None => REPLACEMENT end))
           (decode buf).

End Utf8.

(** ** Values, exceptions and suspended computations *)

Module Js.
Import JsString.

Inductive JsError :=
| TypeError
| SyntaxError
| TransportError (errno : Z).

(** How the evaluation of a block ends: normally, by a throw, or not at all
    because an awaited promise has not settled. *)
Inductive completion (A : Type) :=
| Normal (a : A)
| Throw (e : JsError)
| Pending.
Arguments Normal {A} a.
Arguments Throw {A} e.
Arguments Pending {A}.

(** What an awaited promise does. *)
Inductive settled (A : Type) :=
| Resolved (a : A)
| Rejected (e : JsError)
| Never.
Arguments Resolved {A} a.
Arguments Rejected {A} e.
Arguments Never {A}.

Definition M (S A : Type) : Type := S -> completion A * S.

Definition ret {S A} (a : A) : M S A := fun st => (Normal a, st).

Definition bind {S A B} (m : M S A) (k : A -> M S B) : M S B :=
  fun st =>
    match m st with
    | (Normal a, st') => k a st'
    | (Throw e, st') => (Throw e, st')
    | (Pending, st') => (Pending, st')
    end.

Definition throw {S A} (e : JsError) : M S A := fun st => (Throw e, st).

Definition await {S A} (p : settled A) : M S A :=
  fun st =>
    match p with
    | Resolved a => (Normal a, st)
    | Rejected e => (Throw e, st)
    | Never => (Pending, st)
    end.

(** [try { body } catch (err) { handler(err) }] *)
Definition try_catch {S A} (body : M S A) (handler : JsError -> M S A) : M S A :=
  fun st =>
    match body st with
    | (Throw e, st') => handler e st'
    | r => r
    end.

Definition modify {S} (f : S -> S) : M S unit := fun st => (Normal tt, f st).

Definition gets {S A} (f : S -> A) : M S A := fun st => (Normal (f st), st).

Declare Scope js_scope.
Delimit Scope js_scope with js.
Notation "x <- m ;; k" := (bind m (fun x => k))
  (at level 61, m at next level, right associativity) : js_scope.
Notation "m ;; k" := (bind m (fun _ => k))
  (at level 61, right associativity) : js_scope.

(** The values [JSON.parse] produces.  An object lists its own properties,
    each key once. *)
Inductive json :=
| JNull
| JBool (b : bool)
| JNumber (x : float)
| JString (s : jsstring)
| JArray (items : list json)
| JObject (members : list (jsstring * json)).

Fixpoint lookup (key : jsstring) (members : list (jsstring * json)) : option json :=
  match members with
  | [] => None
  | (k, v) :: rest => if jsstring_eq_dec k key then Some v else lookup key rest
  end.

(** [data[key]] for a string key that no prototype defines: [None] is
    [undefined]; reading a property of [null] throws. *)
Definition get_property {S} (data : json) (key : jsstring) : M S (option json) :=
  match data with
  | JNull => throw TypeError
  | JObject members => ret (lookup key members)
  | _ => ret None
  end.

(** Truthiness of a value. *)
Definition ToBoolean (v : json) : bool :=
  match v with
  | JNull => false
  | JBool b => b
  | JNumber x => negb (PrimFloat.eqb x 0%float || PrimFloat.is_nan x)
  | JString s => match s with [] => false | _ :: _ => true end
  | JArray _ => true
  | JObject _ => true
  end.

(** The built-ins the program calls and does not define. *)
Class Builtins := {
  (** [JSON.parse(text)]: a value, or [None] when it throws a SyntaxError *)
  JSON_parse : jsstring -> option json;
  (** [path.join(...segments)] *)
  path_join : list jsstring -> jsstring
}.

End Js.

(** ** The renderer: [App.jsx] *)

Module App.
Import JsString Js.
Local Open Scope js_scope.

Inductive ConsoleEntry :=
| console_error (label : jsstring) (err : JsError).

(** The component's state hooks and the window's console. *)
Record State := {
  status : jsstring;
  logs : list jsstring;
  progress : json;
  console : list ConsoleEntry
}.

Definition initial : State :=
  {| status := js "Idle"; logs := []; progress := JNumber 0%float; console := [] |}.

Definition setLogs (f : list jsstring -> list jsstring) : M State unit :=
  modify (fun st => {| status := status st; logs := f (logs st);
                       progress := progress st; console := console st |}).

Definition setProgress (v : json) : M State unit :=
  modify (fun st => {| status := status st; logs := logs st;
                       progress := v; console := console st |}).

Definition error (label : jsstring) (e : JsError) : M State unit :=
  modify (fun st => {| status := status st; logs := logs st;
                       progress := progress st;
                       console := console st ++ [console_error label e] |}).

(** [const [topic, ...rest] = msg.split(' '); const dataStr = rest.join(' ')].
    [split] never returns the empty array, so the second case is never
    taken. *)
Definition decode (msg : jsstring) : jsstring * jsstring :=
  match split SPACE msg with
  | topic :: rest => (topic, join SPACE rest)
  | [] => ([], [])
  end.

(** The text the handler gives to [JSON.parse]. *)
Definition parsed_text (dataStr : jsstring) : jsstring :=
  replace_all APOSTROPHE QUOTE dataStr.

Section Handler.
Context `{Builtins}.

Definition parse (text : jsstring) : M State json :=
  match JSON_parse text with
  | Some v => ret v
  | None => throw SyntaxError
  end.

(** The callback given to [window.api.onUpdate]. *)
Definition onUpdate (msg : jsstring) : M State unit :=
  let (topic, dataStr) := decode msg in
  setLogs (fun prev => prev ++ [js "[" ++ topic ++ js "] " ++ dataStr]) ;;
  if jsstring_eq_dec topic (js "progress") then
    try_catch
      (data <- parse (parsed_text dataStr) ;;
       value <- get_property data (js "value") ;;
       match value with
       | Some v => if ToBoolean v then setProgress v else ret tt
       | None => ret tt
       end)
      (fun e => error (js "JSON Parse Error") e)
  else ret tt.

End Handler.

Definition setStatus (text : jsstring) : M State unit :=
  modify (fun st => {| status := text; logs := logs st;
                       progress := progress st; console := console st |}).

(** [handleStart] up to its [await]: the three resets. *)
Definition handleStart_request : M State unit :=
  setStatus (js "Requesting...") ;;
  setLogs (fun _ => []) ;;
  setProgress (JNumber 0%float).

(** [handleStart] after its [await]. *)
Definition handleStart_reply (reply : jsstring) : M State unit :=
  setStatus (js "Backend Reply: " ++ reply).

(** [handleStart]; [sendJob] is what the promise of
    [window.api.sendJob('Start-Analysis')] does. *)
Definition handleStart (sendJob : settled jsstring) : M State unit :=
  handleStart_request ;;
  reply <- await sendJob ;;
  handleStart_reply reply.

End App.

(** ** The main process *)

Module Main.
Import JsString Js.
Local Open Scope js_scope.

(** What the runtime tells the program about itself: [app.isPackaged],
    [process.platform], [process.resourcesPath] and [__dirname]. *)
Record Process := {
  isPackaged : bool;
  platform : jsstring;
  resourcesPath : jsstring;
  dirname : jsstring
}.

(** The object [spawn] returns.  [has_handle] tells whether the runtime still
    holds the operating system's process (it was launched and its exit has not
    been observed); [sigterm] counts the signals [kill()] delivered. *)
Record ChildProcess := {
  spawn_cmd : jsstring;
  spawn_args : list jsstring;
  has_handle : bool;
  killed : bool;
  sigterm : nat
}.

(** [child_process.spawn(cmd, args)]; [launched] is whether the operating
    system could start the executable. *)
Definition spawn (launched : bool) (cmd : jsstring) (args : list jsstring) : ChildProcess :=
  {| spawn_cmd := cmd; spawn_args := args; has_handle := launched;
     killed := false; sigterm := 0%nat |}.

(** Node's [subprocess.kill()], which is the runtime's and not part of the
    sources: the default signal (SIGTERM) is delivered through the handle
    while the runtime holds one, whether or not [kill()] was called before,
    and nothing happens once the handle is gone. *)
Definition kill (p : ChildProcess) : ChildProcess :=
  if has_handle p then
    {| spawn_cmd := spawn_cmd p; spawn_args := spawn_args p; has_handle := true;
       killed := true; sigterm := S (sigterm p) |}
  else p.

(** The runtime observes the exit of the child and releases the handle. *)
Definition exited (p : ChildProcess) : ChildProcess :=
  {| spawn_cmd := spawn_cmd p; spawn_args := spawn_args p; has_handle := false;
     killed := killed p; sigterm := sigterm p |}.

(** A ZeroMQ socket: the endpoints it was connected to, the topic prefixes
    it subscribed to (subscriber sockets), and whether it was closed. *)
Record Socket := {
  endpoints : list jsstring;
  subscriptions : list Buffer;
  closed : bool
}.

Definition fresh_socket : Socket :=
  {| endpoints := []; subscriptions := []; closed := false |}.

Definition EBADF : Z := 9.

(** The zeromq library's [sock.connect(endpoint)] and
    [sock.subscribe(prefix)] throw on a closed socket; [sock.close()] may be
    repeated. *)
Definition connect (endpoint : jsstring) (s : Socket) : completion unit * Socket :=
  if closed s then (Throw (TransportError EBADF), s)
  else (Normal tt, {| endpoints := endpoints s ++ [endpoint];
                      subscriptions := subscriptions s; closed := false |}).

Definition subscribe (prefix : Buffer) (s : Socket) : completion unit * Socket :=
  if closed s then (Throw (TransportError EBADF), s)
  else (Normal tt, {| endpoints := endpoints s;
                      subscriptions := subscriptions s ++ [prefix]; closed := false |}).

Definition close (s : Socket) : Socket :=
  {| endpoints := endpoints s; subscriptions := subscriptions s; closed := true |}.

(** Modelled from the spec: the subscriber transport, which is the zeromq
    library's and not part of the sources.  "subscribes to a closed set of
    topic prefixes"; "subscriber declares topic prefixes, receives only
    matching frames": a message passes when its first frame starts with one of
    the subscribed prefixes. *)
Definition matches (s : Socket) (frame : Buffer) : bool :=
  existsb (fun prefix => starts_with prefix frame) (subscriptions s).

(** A multipart message: its first frame and the others. *)
Definition Message : Type := Buffer * list Buffer.

Inductive ConsoleEntry :=
| console_log (text : jsstring)
| console_error (label : jsstring) (err : option JsError).

(** The [for await] loop of [setupZMQ]: not entered, suspended on the next
    message, or left (the function has returned). *)
Inductive Loop := NotStarted | Awaiting | Returned.

Definition Window := nat.

(** The module's globals ([mainWindow], [pythonProcess], [sockReq],
    [sockSub]), the suspended loop, the windows the runtime has open, and
    what the program did to the outside: the console and the messages given
    to [webContents.send] (window, channel, argument). *)
Record State := {
  mainWindow : option Window;
  pythonProcess : option ChildProcess;
  sockReq : Socket;
  sockSub : Socket;
  updateLoop : Loop;
  openWindows : list Window;
  nextWindow : Window;
  console : list ConsoleEntry;
  ipc : list (Window * jsstring * jsstring)
}.

Definition initial : State :=
  {| mainWindow := None; pythonProcess := None;
     sockReq := fresh_socket; sockSub := fresh_socket;
     updateLoop := NotStarted; openWindows := []; nextWindow := 0%nat;
     console := []; ipc := [] |}.

Definition set_mainWindow (w : option Window) (st : State) : State :=
  {| mainWindow := w; pythonProcess := pythonProcess st;
     sockReq := sockReq st; sockSub := sockSub st;
     updateLoop := updateLoop st; openWindows := openWindows st;
     nextWindow := nextWindow st; console := console st; ipc := ipc st |}.

Definition set_pythonProcess (p : option ChildProcess) (st : State) : State :=
  {| mainWindow := mainWindow st; pythonProcess := p;
     sockReq := sockReq st; sockSub := sockSub st;
     updateLoop := updateLoop st; openWindows := openWindows st;
     nextWindow := nextWindow st; console := console st; ipc := ipc st |}.

Definition set_sockReq (s : Socket) (st : State) : State :=
  {| mainWindow := mainWindow st; pythonProcess := pythonProcess st;
     sockReq := s; sockSub := sockSub st;
     updateLoop := updateLoop st; openWindows := openWindows st;
     nextWindow := nextWindow st; console := console st; ipc := ipc st |}.

Definition set_sockSub (s : Socket) (st : State) : State :=
  {| mainWindow := mainWindow st; pythonProcess := pythonProcess st;
     sockReq := sockReq st; sockSub := s;
     updateLoop := updateLoop st; openWindows := openWindows st;
     nextWindow := nextWindow st; console := console st; ipc := ipc st |}.

Definition set_updateLoop (l : Loop) (st : State) : State :=
  {| mainWindow := mainWindow st; pythonProcess := pythonProcess st;
     sockReq := sockReq st; sockSub := sockSub st;
     updateLoop := l; openWindows := openWindows st;
     nextWindow := nextWindow st; console := console st; ipc := ipc st |}.

Definition set_windows (ws : list Window) (next : Window) (st : State) : State :=
  {| mainWindow := mainWindow st; pythonProcess := pythonProcess st;
     sockReq := sockReq st; sockSub := sockSub st;
     updateLoop := updateLoop st; openWindows := ws;
     nextWindow := next; console := console st; ipc := ipc st |}.

Definition set_console (c : list ConsoleEntry) (st : State) : State :=
  {| mainWindow := mainWindow st; pythonProcess := pythonProcess st;
     sockReq := sockReq st; sockSub := sockSub st;
     updateLoop := updateLoop st; openWindows := openWindows st;
     nextWindow := nextWindow st; console := c; ipc := ipc st |}.

Definition set_ipc (i : list (Window * jsstring * jsstring)) (st : State) : State :=
  {| mainWindow := mainWindow st; pythonProcess := pythonProcess st;
     sockReq := sockReq st; sockSub := sockSub st;
     updateLoop := updateLoop st; openWindows := openWindows st;
     nextWindow := nextWindow st; console := console st; ipc := i |}.

(** [console.log], [console.error] and [win.webContents.send]. *)
Definition log (text : jsstring) : M State unit :=
  modify (fun st => set_console (console st ++ [console_log text]) st).

Definition error (label : jsstring) (err : option JsError) : M State unit :=
  modify (fun st => set_console (console st ++ [console_error label err]) st).

Definition webContents_send (w : Window) (channel message : jsstring) : M State unit :=
  modify (fun st => set_ipc (ipc st ++ [(w, channel, message)]) st).

Definition on_sockReq (op : Socket -> completion unit * Socket) : M State unit :=
  fun st => let (c, s) := op (sockReq st) in (c, set_sockReq s st).

Definition on_sockSub (op : Socket -> completion unit * Socket) : M State unit :=
  fun st => let (c, s) := op (sockSub st) in (c, set_sockSub s st).

(** *** 1. ZeroMQ setup *)

(** What the subscriber's async iterator answers to the suspended loop. *)
Inductive IterResult :=
| Yield (msg : Message)
| Fail (e : JsError)
| Done.

(** [catch (err) { console.error("[Electron] ZeroMQ Error:", err); }], after
    which the function returns. *)
Definition catch_zmq (err : JsError) : M State unit :=
  error (js "[Electron] ZeroMQ Error:") (Some err) ;;
  modify (set_updateLoop Returned).

(** The loop suspends on the iterator's next message. *)
Definition next_message : M State unit :=
  fun st => (Pending, set_updateLoop Awaiting st).

(** [setupZMQ], up to its first suspension. *)
Definition setupZMQ : M State unit :=
  try_catch
    (on_sockReq (connect (js "tcp://127.0.0.1:5555")) ;;
     on_sockSub (connect (js "tcp://127.0.0.1:5556")) ;;
     on_sockSub (subscribe (Buffer_from "progress")) ;;
     on_sockSub (subscribe (Buffer_from "result")) ;;
     log (js "[Electron] Connected to Python ZMQ Sockets.") ;;
     next_message)
    catch_zmq.

(** The body of the loop: [const message = msg.toString()] and the guarded
    [mainWindow.webContents.send("zmq-update", message)]. *)
Definition forward (msg : Message) : M State unit :=
  let message := Utf8.toString (fst msg) in
  w <- gets mainWindow ;;
  match w with
  | Some win => webContents_send win (js "zmq-update") message
  | None => ret tt
  end.

(** [setupZMQ] resumed with the iterator's answer, up to its next suspension
    or its return. *)
Definition setupZMQ_resume (r : IterResult) : M State unit :=
  try_catch
    (match r with
     | Yield msg => forward msg ;; next_message
     | Fail e => throw e
     | Done => modify (set_updateLoop Returned)
     end)
    catch_zmq.

(** *** 2. Window creation *)

(** [createWindow]: the new window becomes [mainWindow].  Its options and
    the URL it loads play no part in the bridge. *)
Definition createWindow : M State unit :=
  modify (fun st =>
            let w := nextWindow st in
            set_mainWindow (Some w)
              (set_windows (w :: openWindows st) (S w) st)).

(** [mainWindow.on("closed", () => { mainWindow = null; })] *)
Definition on_closed : M State unit :=
  modify (set_mainWindow None).

(** *** 3. IPC handlers *)

(** The request socket's answers to one [send] and one [receive]. *)
Record RoundTrip := {
  send_result : settled unit;
  receive_result : settled (list Buffer)
}.

(** [JSON.stringify({ error: "Failed to reach backend" })] *)
Definition error_reply : jsstring :=
  js "{" ++ QUOTE :: js "error" ++ QUOTE :: js ":" ++
  QUOTE :: js "Failed to reach backend" ++ QUOTE :: js "}".

(** [ipcMain.handle("send-command", async (event, command) => ...)] *)
Definition send_command (command : jsstring) (rt : RoundTrip) : M State jsstring :=
  log (js "[Electron] Sending command to Python: " ++ command) ;;
  try_catch
    (await (send_result rt) ;;
     parts <- await (receive_result rt) ;;
     match parts with
     | reply :: _ => ret (Utf8.toString reply)
     | [] => throw TypeError
     end)
    (fun err => error (js "ZMQ Send Error:") (Some err) ;; ret error_reply).

(** *** 4. Python process management *)

Section Backend.
Context `{Builtins}.
Variable proc : Process.

Definition on_win32 : bool :=
  if jsstring_eq_dec (platform proc) (js "win32") then true else false.

(** [startBackend]; [launched] is what the operating system makes of the
    [spawn]. *)
Definition startBackend (launched : bool) : M State unit :=
  launch <-
    (if isPackaged proc then
       let executableName := if on_win32 then js "backend.exe" else js "backend" in
       let scriptPath := path_join [resourcesPath proc; executableName] in
       log (js "[Prod] Launching Python executable from: " ++ scriptPath) ;;
       ret (scriptPath, [])
     else
       let scriptPath :=
         path_join [dirname proc; js ".."; js "py_backend"; js "backend.py"] in
       log (js "[Dev] Launching Python script from: " ++ scriptPath) ;;
       ret (if on_win32 then js "python" else js "python3", [scriptPath])) ;;
  modify (set_pythonProcess (Some (spawn launched (fst launch) (snd launch)))).

(** The listeners [startBackend] attaches to the child. *)
Definition on_stdout (d : jsstring) : M State unit :=
  log (js "[PY]: " ++ d).

Definition on_stderr (d : jsstring) : M State unit :=
  error (js "[PY ERR]: " ++ d) None.

Definition on_error (err : JsError) : M State unit :=
  error (js "[PY FAIL] Failed to start python process:") (Some err).

(** [startPythonBackend], which the lifecycle does not call, and the
    listeners it attaches; [code] is the exit code as the template prints
    it. *)
Definition startPythonBackend (launched : bool) : M State unit :=
  let scriptPath :=
    path_join [dirname proc; js ".."; js "py_backend"; js "backend.py"] in
  let pythonCmd := if on_win32 then js "python" else js "python3" in
  log (js "[Electron] Launching Python from: " ++ scriptPath) ;;
  modify (set_pythonProcess (Some (spawn launched pythonCmd [scriptPath]))).

Definition on_python_stdout (data : jsstring) : M State unit :=
  log (js "[Python]: " ++ data).

Definition on_python_stderr (data : jsstring) : M State unit :=
  error (js "[Python Err]: " ++ data) None.

Definition on_python_close (code : jsstring) : M State unit :=
  log (js "[Python] Process exited with code " ++ code).

(** *** 5. App lifecycle *)

(** Calling an async function: the caller goes on, whatever becomes of the
    promise. *)
Definition call_async {A} (m : M State A) : M State unit :=
  fun st => (Normal tt, snd (m st)).

(** [app.whenReady().then(() => { startBackend(); setupZMQ(); createWindow(); })] *)
Definition whenReady (launched : bool) : M State unit :=
  startBackend launched ;;
  call_async setupZMQ ;;
  createWindow.

(** [app.on("will-quit", ...)] *)
Definition will_quit : M State unit :=
  p <- gets pythonProcess ;;
  match p with
  | Some child => modify (set_pythonProcess (Some (kill child)))
  | None => ret tt
  end ;;
  modify (fun st => set_sockReq (close (sockReq st)) st) ;;
  modify (fun st => set_sockSub (close (sockSub st)) st).

(** [app.quit()]: the will-quit listener runs; the closed subscriber ends
    the iteration of a suspended loop. *)
Definition app_quit : M State unit :=
  will_quit ;;
  l <- gets updateLoop ;;
  match l with
  | Awaiting => setupZMQ_resume Done
  | _ => ret tt
  end.

(** [app.on("window-all-closed", ...)] *)
Definition window_all_closed : M State unit :=
  if jsstring_eq_dec (platform proc) (js "darwin") then ret tt else app_quit.

(** [app.on("activate", ...)] *)
Definition activate : M State unit :=
  ws <- gets openWindows ;;
  match ws with
  | [] => createWindow
  | _ :: _ => ret tt
  end.

(** *** The event loop *)

(** What the runtime and the outside world make happen. *)
Inductive Event :=
| Ready (launched : bool)
| Published (msg : Message)
| ReceiveFailed (e : JsError)
| WindowClosed (w : Window)
| Activate
| SendCommand (command : jsstring) (rt : RoundTrip)
| ChildStdout (d : jsstring)
| ChildStderr (d : jsstring)
| ChildError (e : JsError)
| ChildExit
| Quit.

Definition remove_window (w : Window) (ws : list Window) : list Window :=
  filter (fun x => negb (Nat.eqb x w)) ws.

(** The subscriber hands a published message to the suspended loop when the
    socket is open and the message passes the subscription filter. *)
Definition deliver (msg : Message) : M State unit :=
  fun st =>
    if closed (sockSub st) then (Normal tt, st)
    else if matches (sockSub st) (fst msg) then
      match updateLoop st with
      | Awaiting => setupZMQ_resume (Yield msg) st
      | _ => (Normal tt, st)
      end
    else (Normal tt, st).

Definition handle (ev : Event) : M State unit :=
  match ev with
  | Ready launched => whenReady launched
  | Published msg => deliver msg
  | ReceiveFailed e =>
      l <- gets updateLoop ;;
      match l with
      | Awaiting => setupZMQ_resume (Fail e)
      | _ => ret tt
      end
  | WindowClosed w =>
      ws <- gets openWindows ;;
      if existsb (Nat.eqb w) ws then
        modify (fun st => set_windows (remove_window w ws) (nextWindow st) st) ;;
        on_closed ;;
        match remove_window w ws with
        | [] => window_all_closed
        | _ :: _ => ret tt
        end
      else ret tt
  | Activate => activate
  | SendCommand command rt => send_command command rt ;; ret tt
  | ChildStdout d => on_stdout d
  | ChildStderr d => on_stderr d
  | ChildError e => on_error e
  | ChildExit =>
      modify (fun st => set_pythonProcess (option_map exited (pythonProcess st)) st)
  | Quit => app_quit
  end.

Definition step (st : State) (ev : Event) : State := snd (handle ev st).

Definition run (evs : list Event) (st : State) : State := fold_left step evs st.

End Backend.

End Main.

(* ================================================================== *)
(** * Part II: properties *)
(* ================================================================== *)

(** ** Splitting and joining *)

Module JsStringFacts.
Import JsString.

Lemma split_nonempty (sep : code_unit) (s : jsstring) : split sep s <> [].
Proof.
  destruct s as [|c s]; simpl; [discriminate|].
  destruct (c =? sep); [discriminate|].
  destruct (split sep s); discriminate.
Qed.

(** Up to the first separator nothing is cut. *)
Lemma split_first (sep : code_unit) (t p : jsstring) :
  ~ In sep t -> split sep (t ++ sep :: p) = t :: split sep p.
Proof.
  induction t as [|c t IH]; intros Hnot; simpl.
  - now rewrite Z.eqb_refl.
  - destruct (Z.eqb_spec c sep) as [->|_].
    + exfalso. apply Hnot. now left.
    + rewrite IH; [reflexivity|]. intros Hin. apply Hnot. now right.
Qed.

Lemma split_none (sep : code_unit) (s : jsstring) :
  ~ In sep s -> split sep s = [s].
Proof.
  induction s as [|c s IH]; intros Hnot; simpl; [reflexivity|].
  destruct (Z.eqb_spec c sep) as [->|_].
  - exfalso. apply Hnot. now left.
  - rewrite IH; [reflexivity|]. intros Hin. apply Hnot. now right.
Qed.

(** Joining the pieces with the separator gives the text back. *)
Lemma join_split (sep : code_unit) (s : jsstring) :
  join sep (split sep s) = s.
Proof.
  induction s as [|c s IH]; [reflexivity|].
  cbn [split].
  destruct (Z.eqb_spec c sep) as [->|_].
  - pose proof (split_nonempty sep s) as Hne.
    destruct (split sep s) as [|q qs]; [contradiction|].
    cbn [join app]. cbn [join] in IH. now rewrite IH.
  - pose proof (split_nonempty sep s) as Hne.
    destruct (split sep s) as [|q qs]; [contradiction|].
    cbn [join] in *. destruct qs; cbn [app]; now rewrite IH.
Qed.

Lemma replace_all_clean (c d : code_unit) (s : jsstring) :
  c <> d -> ~ In c (replace_all c d s).
Proof.
  intros Hcd Hin. unfold replace_all in Hin.
  apply in_map_iff in Hin. destruct Hin as [u [Hu _]].
  destruct (Z.eqb_spec u c); congruence.
Qed.

Lemma replace_all_changes (c d : code_unit) (s : jsstring) :
  c <> d -> In c s -> replace_all c d s <> s.
Proof.
  intros Hcd Hin Heq.
  apply (replace_all_clean c d s Hcd). now rewrite Heq.
Qed.

Lemma replace_all_id (c d : code_unit) (s : jsstring) :
  ~ In c s -> replace_all c d s = s.
Proof.
  induction s as [|u s IH]; intros Hnot; [reflexivity|].
  simpl. destruct (Z.eqb_spec u c) as [->|_].
  - exfalso. apply Hnot. now left.
  - f_equal. apply IH. intros Hin. apply Hnot. now right.
Qed.

Lemma replace_all_nth (c d : code_unit) (s : jsstring) (i : nat) (u : code_unit) :
  nth_error s i = Some u ->
  nth_error (replace_all c d s) i = Some (if u =? c then d else u).
Proof.
  intros Hu. unfold replace_all.
  now apply (map_nth_error (fun u => if u =? c then d else u)).
Qed.

End JsStringFacts.

(** ** Decoding buffers *)

Module Utf8Facts.
Import JsString Utf8.

(** The euro sign, an emoji (a surrogate pair), a byte that is never part
    of UTF-8, and a sequence cut short. *)
Example toString_euro : toString [xe2; x82; xac] = [0x20AC].
Proof. reflexivity. Qed.

Example toString_emoji : toString [xf0; x9f; x98; x80] = [0xD83D; 0xDE00].
Proof. reflexivity. Qed.

Example toString_bad_byte : toString [x61; xff; x62] = [0x61; REPLACEMENT; 0x62].
Proof. reflexivity. Qed.

Example toString_truncated : toString [xe2; x82; x61] = [REPLACEMENT; 0x61].
Proof. reflexivity. Qed.

Lemma run_ascii (bs : list Z) :
  (forall b, In b bs -> b <= 0x7F) -> run idle bs = map Some bs.
Proof.
  induction bs as [|b bs IH]; intros Hle; [reflexivity|].
  cbn [run map]. unfold feed. cbn [bytes_needed idle Z.eqb].
  unfold lead. destruct (Z.leb_spec b 0x7F) as [_|Hgt].
  - cbn [app]. f_equal. apply IH. intros x Hx. apply Hle. now right.
  - specialize (Hle b (or_introl eq_refl)). lia.
Qed.

(** An ASCII buffer reads as its bytes. *)
Lemma toString_ascii (buf : Buffer) :
  (forall b, In b buf -> byte_to_Z b <= 0x7F) ->
  toString buf = map byte_to_Z buf.
Proof.
  intros Hle. unfold toString, decode. rewrite run_ascii.
  - induction buf as [|b buf IH]; [reflexivity|].
    cbn [map flat_map]. rewrite IH.
    + unfold utf16. destruct (Z.ltb_spec (byte_to_Z b) 0x10000) as [_|Hge].
      * reflexivity.
      * specialize (Hle b (or_introl eq_refl)). lia.
    + intros x Hx. apply Hle. now right.
  - intros z Hz. apply in_map_iff in Hz. destruct Hz as [b [<- Hb]]. now apply Hle.
Qed.

Lemma error_found (l : list (option Z)) :
  forallb (fun o => match o with Some _ => true | None => false end) l = false ->
  In None l.
Proof.
  induction l as [|[cp|] l IH]; simpl; intros Hf.
  - discriminate.
  - right. now apply IH.
  - now left.
Qed.

(** The text of an ill-formed buffer holds a replacement character. *)
Lemma invalid_replaced (buf : Buffer) :
  valid buf = false -> In REPLACEMENT (toString buf).
Proof.
  intros Hv. unfold toString. apply in_flat_map.
  exists None. split; [now apply error_found|]. now left.
Qed.

End Utf8Facts.

(** ** A runtime to run the model on *)

Module Sample.
Import JsString Js.

(** The segments joined with a slash, which is what [path.join] does on
    POSIX before it normalises the result. *)
Definition slash_join (segments : list jsstring) : jsstring :=
  join 47 segments.

(** A parser that rejects every text. *)
Definition reject (text : jsstring) : option json := None.

Definition builtins : Builtins :=
  {| JSON_parse := reject; path_join := slash_join |}.

Definition mac : Main.Process :=
  {| Main.isPackaged := false; Main.platform := js "darwin";
     Main.resourcesPath := js "/opt/app/resources";
     Main.dirname := js "/opt/app/electron" |}.

End Sample.

(** ** The renderer's update handler *)

Module AppFacts.
Import JsString Js App JsStringFacts.

(** The characters [\s] matches: white space and line terminators. *)
Definition is_whitespace (c : code_unit) : bool :=
  existsb (Z.eqb c)
    [9; 10; 11; 12; 13; 32; 0xA0; 0x1680; 0x2028; 0x2029; 0x202F; 0x205F;
     0x3000; 0xFEFF]
  || ((0x2000 <=? c) && (c <=? 0x200A)).

Lemma space_is_whitespace : is_whitespace SPACE = true.
Proof. reflexivity. Qed.

Definition logged (st : State) (line : jsstring) : State :=
  {| status := status st; logs := logs st ++ [line];
     progress := progress st; console := console st |}.

Definition with_progress (st : State) (v : json) : State :=
  {| status := status st; logs := logs st;
     progress := v; console := console st |}.

Definition with_error (st : State) (e : JsError) : State :=
  {| status := status st; logs := logs st; progress := progress st;
     console := console st ++ [console_error (js "JSON Parse Error") e] |}.

(** What the handler does with a downstream value of [JSON.parse]. *)
Definition apply_parsed (st : State) (r : option json) : State :=
  match r with
  | None => with_error st SyntaxError
  | Some JNull => with_error st TypeError
  | Some (JObject members) =>
      match lookup (js "value") members with
      | Some v => if ToBoolean v then with_progress st v else st
      | None => st
      end
  | Some _ => st
  end.

Lemma apply_parsed_logs (st : State) (r : option json) :
  logs (apply_parsed st r) = logs st.
Proof.
  destruct r as [[| b | x | s | items | members]|]; try reflexivity.
  cbn [apply_parsed].
  destruct (lookup (js "value") members) as [v|]; [|reflexivity].
  now destruct (ToBoolean v).
Qed.

Section Handler.
Context {B : Builtins}.

Lemma onUpdate_progress (msg payload : jsstring) (st : State) :
  decode msg = (js "progress", payload) ->
  onUpdate msg st =
  (Normal tt,
   apply_parsed (logged st (js "[" ++ js "progress" ++ js "] " ++ payload))
                (JSON_parse (parsed_text payload))).
Proof.
  intros Hd. unfold onUpdate. rewrite Hd.
  destruct (jsstring_eq_dec (js "progress") (js "progress")) as [_|Hne];
    [|contradiction].
  unfold bind, setLogs, modify, try_catch, parse. cbn beta iota.
  destruct (JSON_parse (parsed_text payload)) as [data|]; [|reflexivity].
  destruct data as [| b | x | s | items | members]; try reflexivity.
  unfold apply_parsed, get_property, ret, bind.
  destruct (lookup (js "value") members) as [v|]; [|reflexivity].
  now destruct (ToBoolean v).
Qed.

Lemma onUpdate_other (msg topic payload : jsstring) (st : State) :
  decode msg = (topic, payload) -> topic <> js "progress" ->
  onUpdate msg st = (Normal tt, logged st (js "[" ++ topic ++ js "] " ++ payload)).
Proof.
  intros Hd Hne. unfold onUpdate. rewrite Hd.
  destruct (jsstring_eq_dec topic (js "progress")) as [He|_]; [contradiction|].
  reflexivity.
Qed.

(** The handler always returns. *)
Lemma onUpdate_returns (msg : jsstring) (st : State) :
  exists st', onUpdate msg st = (Normal tt, st').
Proof.
  destruct (decode msg) as [topic payload] eqn:Hd.
  destruct (jsstring_eq_dec topic (js "progress")) as [->|Hne].
  - eexists. now apply (onUpdate_progress msg payload).
  - eexists. now apply (onUpdate_other msg topic payload).
Qed.

End Handler.

(** C1: a frame ["<topic> <payload>"] is cut at its first space only: the
    topic is the text before it and the payload all the rest, further spaces
    included. *)
Theorem decode_first_space (topic payload : jsstring) :
  ~ In SPACE topic ->
  decode (topic ++ SPACE :: payload) = (topic, payload).
Proof.
  intros Hnot. unfold decode.
  rewrite split_first by assumption. now rewrite join_split.
Qed.

(** The frame [progress {"value": 50}]. *)
Definition progress_50 : jsstring :=
  js "{" ++ QUOTE :: js "value" ++ QUOTE :: js ": 50}".

Lemma decode_first_space_progress :
  ~ In SPACE (js "progress") /\
  decode (js "progress " ++ progress_50) = (js "progress", progress_50).
Proof.
  assert (Hnot : ~ In SPACE (js "progress")) by (vm_compute; lia).
  split; [exact Hnot|].
  exact (decode_first_space (js "progress") progress_50 Hnot).
Defined.

(** C4: a frame without any white space is its own topic, with the empty
    payload, and the handler returns normally. *)
Theorem decode_without_whitespace (B : Builtins) (frame : jsstring) (st : State) :
  (forall c, In c frame -> is_whitespace c = false) ->
  decode frame = (frame, []) /\
  exists st', onUpdate frame st = (Normal tt, st').
Proof.
  intros Hws. split; [|apply onUpdate_returns].
  unfold decode. rewrite split_none; [reflexivity|].
  intros Hin. apply Hws in Hin. now rewrite space_is_whitespace in Hin.
Qed.

Lemma decode_without_whitespace_result :
  (forall c, In c (js "result") -> is_whitespace c = false) /\
  decode (js "result") = (js "result", []).
Proof.
  assert (Hws : forall c, In c (js "result") -> is_whitespace c = false).
  { intros c Hc. vm_compute in Hc.
    repeat (destruct Hc as [<-|Hc]; [reflexivity|]). contradiction. }
  split; [exact Hws|].
  exact (proj1 (decode_without_whitespace Sample.builtins (js "result") initial Hws)).
Defined.

(** C10: for a frame with topic [progress] the text given to [JSON.parse]
    is the payload with every apostrophe turned into a double quote, never
    the payload as delivered when the two differ; when parsing throws, the
    error is logged and the progress state stays as it was. *)
Theorem progress_parses_altered_text (B : Builtins) (msg payload : jsstring) (st : State) :
  decode msg = (js "progress", payload) ->
  let text := parsed_text payload in
  (~ In APOSTROPHE text /\
   List.length text = List.length payload /\
   forall i u, nth_error payload i = Some u ->
               nth_error text i = Some (if u =? APOSTROPHE then QUOTE else u)) /\
  (In APOSTROPHE payload -> text <> payload) /\
  (forall B' : Builtins,
      @JSON_parse B' text = @JSON_parse B text ->
      @onUpdate B' msg st = @onUpdate B msg st) /\
  (JSON_parse text = None ->
   onUpdate msg st =
   (Normal tt,
    {| status := status st;
       logs := logs st ++ [js "[" ++ js "progress" ++ js "] " ++ payload];
       progress := progress st;
       console := console st ++ [console_error (js "JSON Parse Error") SyntaxError] |})).
Proof.
  intros Hd text. subst text. unfold parsed_text.
  assert (Hq : APOSTROPHE <> QUOTE) by discriminate.
  repeat split.
  - now apply replace_all_clean.
  - unfold replace_all. apply length_map.
  - intros i u Hu. now apply replace_all_nth.
  - now apply replace_all_changes.
  - intros B' Hsame.
    rewrite (@onUpdate_progress B' msg payload st Hd).
    rewrite (@onUpdate_progress B msg payload st Hd).
    unfold parsed_text. now rewrite Hsame.
  - intros Hfail.
    rewrite (@onUpdate_progress B msg payload st Hd).
    unfold parsed_text. now rewrite Hfail.
Qed.

(** The frame [progress {'value': 50}]. *)
Definition quoted_50 : jsstring :=
  js "{'value': 50}".

Lemma progress_parses_altered_text_quoted :
  decode (js "progress " ++ quoted_50) = (js "progress", quoted_50) /\
  parsed_text quoted_50 = progress_50 /\
  parsed_text quoted_50 <> quoted_50.
Proof.
  assert (Hd : decode (js "progress " ++ quoted_50) = (js "progress", quoted_50))
    by reflexivity.
  split; [exact Hd|]. split; [reflexivity|].
  destruct (progress_parses_altered_text Sample.builtins _ _ initial Hd)
    as [_ [Hchanged _]].
  apply Hchanged. vm_compute. tauto.
Defined.

End AppFacts.

(** ** The main process *)

Module MainFacts.
Import JsString Js Main.

Ltac split_all := repeat match goal with |- _ /\ _ => split end.

Ltac unfold_js :=
  unfold try_catch, bind, ret, throw, await, modify, gets in *.

Ltac unfold_main :=
  unfold handle, whenReady, startBackend, call_async, setupZMQ,
    setupZMQ_resume, deliver, app_quit, will_quit, window_all_closed,
    activate, createWindow, on_closed, send_command, on_stdout, on_stderr,
    on_error, catch_zmq, next_message, forward, on_sockReq, on_sockSub,
    connect, subscribe, log, error, webContents_send in *;
  unfold_js.

(** *** The command round trip *)

(** C2: the handler returns the worker's reply decoded as text when the
    round trip succeeds, returns the error object's text when the send or the
    receive fails, and never throws. *)
Theorem send_command_reply (command : jsstring) (rt : RoundTrip) (st : State) :
  (forall reply rest,
      send_result rt = Resolved tt ->
      receive_result rt = Resolved (reply :: rest) ->
      fst (send_command command rt st) = Normal (Utf8.toString reply)) /\
  (forall e,
      send_result rt = Rejected e \/
      (send_result rt = Resolved tt /\ receive_result rt = Rejected e) ->
      send_command command rt st =
      (Normal error_reply,
       set_console
         (console st ++
          [console_log (js "[Electron] Sending command to Python: " ++ command);
           console_error (js "ZMQ Send Error:") (Some e)]) st)) /\
  (forall e, fst (send_command command rt st) <> Throw e).
Proof.
  destruct rt as [sent received]. cbn [send_result receive_result].
  repeat split.
  - intros reply rest -> ->. reflexivity.
  - intros e [->|[-> ->]]; unfold_main; cbn; now rewrite <- app_assoc.
  - intros e. unfold_main.
    destruct sent as [[]|e1|]; [|discriminate..].
    destruct received as [[|reply rest]|e2|]; discriminate.
Qed.

(** The double quote, to write the JSON texts of the examples. *)
Definition dq : string := String "034"%char EmptyString.

(** The reply [{"status":"ok","echo":"Start-Analysis"}]. *)
Definition echo : string :=
  ("{" ++ dq ++ "status" ++ dq ++ ":" ++ dq ++ "ok" ++ dq ++ "," ++
   dq ++ "echo" ++ dq ++ ":" ++ dq ++ "Start-Analysis" ++ dq ++ "}")%string.

(** The worker's echo of the command comes back as the same text. *)
Example send_command_echo :
  fst (send_command (js "Start-Analysis")
         {| send_result := Resolved tt;
            receive_result := Resolved [Buffer_from echo] |}
         initial)
  = Normal (js echo).
Proof. reflexivity. Qed.

(** With no reply in sight the handler stays suspended. *)
Example send_command_unanswered :
  fst (send_command (js "Start-Analysis")
         {| send_result := Resolved tt; receive_result := Never |}
         initial)
  = Pending.
Proof. reflexivity. Qed.

(** *** Launching the worker *)

(** C6: the launch parameters follow the deployment mode and the platform:
    in development the interpreter ([python] on win32, [python3] elsewhere)
    with the script path as its only argument; packaged, the binary
    ([backend.exe] on win32, [backend] elsewhere) in the resources directory,
    without arguments. *)
Theorem startBackend_launch (B : Builtins) (proc : Process) (launched : bool) (st : State) :
  let child := pythonProcess (snd (startBackend proc launched st)) in
  let script := path_join [dirname proc; js ".."; js "py_backend"; js "backend.py"] in
  (isPackaged proc = false -> platform proc = js "win32" ->
   child = Some (spawn launched (js "python") [script])) /\
  (isPackaged proc = false -> platform proc <> js "win32" ->
   child = Some (spawn launched (js "python3") [script])) /\
  (isPackaged proc = true -> platform proc = js "win32" ->
   child = Some (spawn launched (path_join [resourcesPath proc; js "backend.exe"]) [])) /\
  (isPackaged proc = true -> platform proc <> js "win32" ->
   child = Some (spawn launched (path_join [resourcesPath proc; js "backend"]) [])).
Proof.
  cbv zeta. unfold startBackend, on_win32, log. unfold_js.
  repeat split; intros Hmode Hplatform; rewrite Hmode;
    destruct (jsstring_eq_dec (platform proc) (js "win32")) as [Heq|Hne];
    try contradiction; reflexivity.
Qed.

(** *** Quitting *)

Lemma kill_exited (p : ChildProcess) : has_handle p = false -> kill p = p.
Proof. intros Hh. unfold kill. now rewrite Hh. Qed.

Lemma kill_running (p : ChildProcess) :
  has_handle p = true ->
  sigterm (kill p) = S (sigterm p) /\ has_handle (kill p) = true.
Proof. intros Hh. unfold kill. rewrite Hh. now split. Qed.

Lemma close_close (s : Socket) : close (close s) = close s.
Proof. reflexivity. Qed.

Lemma will_quit_state (st : State) :
  will_quit st =
  (Normal tt,
   set_sockSub (close (sockSub st))
     (set_sockReq (close (sockReq st))
        (set_pythonProcess (option_map kill (pythonProcess st)) st))).
Proof.
  unfold will_quit. unfold_js. destruct st as [w [p|] rq sb l ws n c i]; reflexivity.
Qed.

(** A worker that was launched and has not exited. *)
Definition running : State :=
  set_pythonProcess (Some (spawn true (js "python3") [js "backend.py"])) initial.

(** Once the exit of the worker has been observed, quitting again changes
    nothing. *)
Example will_quit_after_exit :
  let quit_and_exit :=
    set_pythonProcess
      (option_map exited (pythonProcess (snd (will_quit running))))
      (snd (will_quit running)) in
  will_quit quit_and_exit = (Normal tt, quit_and_exit).
Proof. reflexivity. Qed.

(** The second of two quits in a row delivers the signal once more. *)
Lemma will_quit_twice_signals_twice :
  option_map sigterm (pythonProcess (snd (will_quit running))) = Some 1%nat /\
  option_map sigterm (pythonProcess (snd (will_quit (snd (will_quit running)))))
  = Some 2%nat.
Proof. split; reflexivity. Qed.

(** C5, as the code has it: the listener calls [kill()] on the worker object
    whenever one was spawned; the signal is delivered only while the runtime
    still holds the process; it closes both sockets and never throws.  With
    the worker exited, or none spawned, a second call changes nothing; with
    the worker still held, a second call delivers the signal again and
    changes nothing else. *)
Theorem will_quit_kills_spawned_worker (st : State) :
  let st1 := snd (will_quit st) in
  let st2 := snd (will_quit st1) in
  (fst (will_quit st) = Normal tt /\ fst (will_quit st1) = Normal tt) /\
  (pythonProcess st1 = option_map kill (pythonProcess st) /\
   closed (sockReq st1) = true /\ closed (sockSub st1) = true) /\
  (forall p, pythonProcess st = Some p -> has_handle p = true ->
             option_map sigterm (pythonProcess st1) = Some (S (sigterm p)) /\
             option_map sigterm (pythonProcess st2) = Some (S (S (sigterm p)))) /\
  (forall p, pythonProcess st = Some p -> has_handle p = false ->
             pythonProcess st1 = Some p /\ st2 = st1) /\
  (pythonProcess st = None -> pythonProcess st1 = None /\ st2 = st1) /\
  (sockReq st2 = sockReq st1 /\ sockSub st2 = sockSub st1 /\
   mainWindow st2 = mainWindow st /\ updateLoop st2 = updateLoop st /\
   console st2 = console st /\ ipc st2 = ipc st).
Proof.
  cbv zeta. rewrite !will_quit_state. cbn [fst snd].
  destruct st as [w p rq sb l ws n c i]. cbn.
  repeat match goal with |- _ /\ _ => split end; try reflexivity.
  - intros q -> Hh. cbn. unfold kill. rewrite Hh. cbn. now split.
  - intros q -> Hh. cbn. now rewrite !kill_exited.
  - now intros ->.
Qed.

(** *** One event at a time *)

#[local] Arguments js : simpl never.
#[local] Arguments Buffer_from : simpl never.
#[local] Arguments Utf8.toString : simpl never.
#[local] Arguments starts_with : simpl never.
#[local] Arguments matches : simpl never.

(** Case analysis on the innermost test the goal is stuck on. *)
Ltac break_if :=
  match goal with
  | |- context [if ?b then _ else _] =>
      lazymatch b with
      | context [if _ then _ else _] => fail
      | context [match _ with _ => _ end] => fail
      | _ => destruct b eqn:?
      end
  | |- context [match ?x with _ => _ end] =>
      lazymatch x with
      | context [if _ then _ else _] => fail
      | context [match _ with _ => _ end] => fail
      | _ => destruct x eqn:?
      end
  end.

Ltac run_handler :=
  unfold step; repeat (progress (unfold_main; cbn in * ));
  repeat (break_if; repeat (progress (unfold_main; cbn in * ))).

Ltac open_state st :=
  let mw := fresh "mw" in
  destruct st as [mw ? [? ? ?] [? ? ?] ? ? ? ? ?].

Definition PROGRESS : Buffer := Buffer_from "progress".
Definition RESULT : Buffer := Buffer_from "result".

(** The first frame starts with one of the two subscribed prefixes. *)
Definition subscribed_prefix (frame : Buffer) : bool :=
  starts_with PROGRESS frame || starts_with RESULT frame.

(** The subscriber holds no other subscription. *)
Definition subscribed_only (st : State) : Prop :=
  forall p, In p (subscriptions (sockSub st)) -> p = PROGRESS \/ p = RESULT.

Lemma matches_prefix (st : State) (frame : Buffer) :
  subscribed_only st -> matches (sockSub st) frame = true ->
  subscribed_prefix frame = true.
Proof.
  intros Hsub Hm. unfold matches in Hm. apply existsb_exists in Hm.
  destruct Hm as [p [Hin Hp]]. unfold subscribed_prefix.
  destruct (Hsub p Hin) as [->| ->]; rewrite Hp; [reflexivity|apply orb_true_r].
Qed.

Section Events.
Context {B : Builtins}.
Variable proc : Process.

Lemma run_snoc (evs : list Event) (ev : Event) (st : State) :
  run proc (evs ++ [ev]) st = step proc (run proc evs st) ev.
Proof. unfold run. now rewrite fold_left_app. Qed.

(** No handler throws. *)
Lemma handle_no_throw (ev : Event) (st : State) (e : JsError) :
  fst (handle proc ev st) <> Throw e.
Proof.
  open_state st. destruct ev; run_handler; discriminate.
Qed.

(** Only a published message that passes the filter, with the loop
    suspended and a window present, adds to what the windows were sent. *)
Lemma step_ipc (st : State) (ev : Event) :
  ipc (step proc st ev) = ipc st \/
  exists msg w,
    ev = Published msg /\ closed (sockSub st) = false /\
    matches (sockSub st) (fst msg) = true /\ updateLoop st = Awaiting /\
    mainWindow st = Some w /\
    ipc (step proc st ev) =
    ipc st ++ [(w, js "zmq-update", Utf8.toString (fst msg))].
Proof.
  open_state st. destruct ev; run_handler; auto.
  right. eexists. eexists. split_all; first [reflexivity | eassumption | congruence].
Qed.

Lemma step_subscribed_only (st : State) (ev : Event) :
  subscribed_only st -> subscribed_only (step proc st ev).
Proof.
  unfold subscribed_only. open_state st.
  destruct ev; run_handler; auto;
    intros Hsub p Hin;
    repeat (apply in_app_or in Hin; destruct Hin as [Hin|Hin]);
    auto;
    destruct Hin as [<-|[]]; auto.
Qed.

Lemma run_subscribed_only (evs : list Event) (st : State) :
  subscribed_only st -> subscribed_only (run proc evs st).
Proof.
  revert st. induction evs as [|ev evs IH]; intros st Hsub; [exact Hsub|].
  cbn. apply IH. now apply step_subscribed_only.
Qed.

(** The loop is left on a failed receive or with the subscriber closed. *)
Lemma step_loop (st : State) (ev : Event) :
  updateLoop st = Awaiting -> (forall l, ev <> Ready l) ->
  updateLoop (step proc st ev) = Awaiting \/
  (updateLoop (step proc st ev) = Returned /\
   ((exists e, ev = ReceiveFailed e) \/ closed (sockSub (step proc st ev)) = true)).
Proof.
  intros Hl Hev. open_state st. cbn in Hl. subst.
  destruct ev; try (now (exfalso; eapply Hev)); run_handler; eauto.
Qed.

(** Once the function has returned, nothing resumes it. *)
Lemma step_returned (st : State) (ev : Event) :
  updateLoop st = Returned -> (forall l, ev <> Ready l) ->
  updateLoop (step proc st ev) = Returned /\ ipc (step proc st ev) = ipc st.
Proof.
  intros Hl Hev. open_state st. cbn in Hl. subst.
  destruct ev; try (now (exfalso; eapply Hev)); run_handler; auto.
Qed.

Lemma run_returned (evs : list Event) (st : State) :
  updateLoop st = Returned -> (forall l, ~ In (Ready l) evs) ->
  updateLoop (run proc evs st) = Returned /\ ipc (run proc evs st) = ipc st.
Proof.
  revert st. induction evs as [|ev evs IH]; intros st Hl Hev; [now split|].
  destruct (step_returned st ev Hl) as [Hl' Hi'].
  { intros l ->. apply (Hev l). now left. }
  change (run proc (ev :: evs) st) with (run proc evs (step proc st ev)).
  destruct (IH (step proc st ev) Hl') as [Hl'' Hi''].
  { intros l Hin. apply (Hev l). now right. }
  split; [exact Hl''|]. now rewrite Hi''.
Qed.

Lemma resume_yield (st : State) (msg : Message) :
  updateLoop st = Awaiting ->
  setupZMQ_resume (Yield msg) st = (Pending, snd (forward msg st)).
Proof.
  intros Hl. open_state st. cbn in Hl. subst. run_handler; reflexivity.
Qed.

Lemma published_without_window (st : State) (msg : Message) :
  mainWindow st = None -> step proc st (Published msg) = st.
Proof.
  intros Hw. open_state st. cbn in Hw. subst. run_handler; reflexivity.
Qed.

Lemma published_with_window (st : State) (msg : Message) (w : Window) :
  updateLoop st = Awaiting -> closed (sockSub st) = false ->
  matches (sockSub st) (fst msg) = true -> mainWindow st = Some w ->
  handle proc (Published msg) st =
  (Pending, set_ipc (ipc st ++ [(w, js "zmq-update", Utf8.toString (fst msg))]) st).
Proof.
  intros Hl Hc Hm Hw. open_state st. cbn in Hl, Hc, Hm, Hw. subst.
  unfold handle, deliver. cbn. rewrite Hm. reflexivity.
Qed.

End Events.

(** *** The update stream *)

(** The session once the app is ready on the sample runtime: worker
    launched, sockets connected, loop suspended, window 0 open. *)
Definition ready : State :=
  @run Sample.builtins Sample.mac [Ready true] initial.

(** A published message of one frame. *)
Definition frame (text : string) : Message := (Buffer_from text, []).

(** A frame under topic [progressive] passes the subscription to
    [progress] and reaches the window. *)
Lemma longer_topic_delivered :
  fst (App.decode (Utf8.toString (Buffer_from "progressive 1"))) = js "progressive" /\
  js "progressive" <> js "progress" /\
  js "progressive" <> js "result" /\
  ipc (@run Sample.builtins Sample.mac
         [Ready true; Published (frame "progressive 1")] initial)
  = [(0%nat, js "zmq-update", js "progressive 1")].
Proof.
  split_all; [reflexivity | discriminate | discriminate | reflexivity].
Qed.

(** C3, as the code has it: whatever happens, a window is only ever sent,
    on the update channel, the text of a published frame that starts with
    [progress] or with [result]; a frame that starts with neither is never
    delivered. *)
Theorem only_subscribed_prefixes_delivered
  (B : Builtins) (proc : Process) (evs : list Event)
  (w : Window) (channel message : jsstring) :
  In (w, channel, message) (ipc (run proc evs initial)) ->
  exists msg,
    In (Published msg) evs /\
    subscribed_prefix (fst msg) = true /\
    channel = js "zmq-update" /\
    message = Utf8.toString (fst msg).
Proof.
  induction evs as [|ev evs IH] using rev_ind; intros Hin; [contradiction|].
  rewrite run_snoc in Hin.
  assert (Hsub : subscribed_only (run proc evs initial)).
  { apply run_subscribed_only. intros p []. }
  destruct (step_ipc proc (run proc evs initial) ev)
    as [Hsame | [msg [w' [-> [_ [Hm [_ [_ Hnew]]]]]]]].
  - rewrite Hsame in Hin. destruct (IH Hin) as [msg [Hev Hrest]].
    exists msg. split; [|exact Hrest]. apply in_or_app. now left.
  - rewrite Hnew in Hin. apply in_app_or in Hin. destruct Hin as [Hin|Hin].
    + destruct (IH Hin) as [msg' [Hev Hrest]].
      exists msg'. split; [|exact Hrest]. apply in_or_app. now left.
    + destruct Hin as [Heq|[]]. inversion Heq; subst.
      exists msg. split_all; try reflexivity.
      * apply in_or_app. right. now left.
      * now apply (matches_prefix (run proc evs initial)).
Qed.

Lemma only_subscribed_prefixes_delivered_result :
  exists msg,
    In (Published msg) [Ready true; Published (frame "debug 1");
                        Published (frame "result done")] /\
    subscribed_prefix (fst msg) = true /\
    js "zmq-update" = js "zmq-update" /\
    js "result done" = Utf8.toString (fst msg).
Proof.
  apply (only_subscribed_prefixes_delivered Sample.builtins Sample.mac
           [Ready true; Published (frame "debug 1"); Published (frame "result done")]
           0%nat (js "zmq-update") (js "result done")).
  vm_compute. now left.
Defined.

(** C7: the suspended loop hands each message to the forwarding step and
    suspends again; it is left only on a failed receive or with the
    subscriber closed; a failed receive is logged once and the function
    returns, after which nothing resumes it; no handler throws. *)
Theorem update_loop_until_failure_or_close
  (B : Builtins) (proc : Process) (st : State) :
  updateLoop st = Awaiting ->
  (forall msg,
      setupZMQ_resume (Yield msg) st = (Pending, snd (forward msg st)) /\
      updateLoop (snd (forward msg st)) = Awaiting) /\
  (forall ev, (forall l, ev <> Ready l) ->
      updateLoop (step proc st ev) = Awaiting \/
      (updateLoop (step proc st ev) = Returned /\
       ((exists e, ev = ReceiveFailed e) \/
        closed (sockSub (step proc st ev)) = true))) /\
  (forall e,
      handle proc (ReceiveFailed e) st =
      (Normal tt,
       set_updateLoop Returned
         (set_console
            (console st ++
             [console_error (js "[Electron] ZeroMQ Error:") (Some e)]) st))) /\
  (forall e later, (forall l, ~ In (Ready l) later) ->
      updateLoop (run proc later (step proc st (ReceiveFailed e))) = Returned /\
      ipc (run proc later (step proc st (ReceiveFailed e))) = ipc st) /\
  (forall ev st0 e, fst (handle proc ev st0) <> Throw e).
Proof.
  intros Hl. split_all.
  - intros msg. split; [now apply resume_yield|].
    open_state st. cbn in Hl. subst. run_handler; reflexivity.
  - intros ev Hev. now apply step_loop.
  - intros e. open_state st. cbn in Hl. subst. reflexivity.
  - intros e later Hlater.
    assert (Hfail : updateLoop (step proc st (ReceiveFailed e)) = Returned
                    /\ ipc (step proc st (ReceiveFailed e)) = ipc st).
    { open_state st. cbn in Hl. subst. now split. }
    destruct Hfail as [Hret Hipc].
    destruct (run_returned proc later _ Hret Hlater) as [Hl' Hi'].
    split; [exact Hl'|]. now rewrite Hi'.
  - intros ev st0 e. apply handle_no_throw.
Qed.

Lemma update_loop_until_failure_or_close_ready :
  updateLoop ready = Awaiting /\
  forall msg,
    setupZMQ_resume (Yield msg) ready = (Pending, snd (forward msg ready)) /\
    updateLoop (snd (forward msg ready)) = Awaiting.
Proof.
  assert (Hl : updateLoop ready = Awaiting) by reflexivity.
  split; [exact Hl|].
  exact (proj1 (update_loop_until_failure_or_close Sample.builtins Sample.mac ready Hl)).
Defined.

(** A frame that is not UTF-8: the subscribed prefix, a space and the
    byte FF. *)
Definition ill_formed : Message :=
  (Buffer_from "progress " ++ [xff], []).

(** The ill-formed frame is forwarded to the window, with U+FFFD for the
    bad byte, and the console stays as it was. *)
Lemma ill_formed_forwarded :
  Utf8.valid (fst ill_formed) = false /\
  @handle Sample.builtins Sample.mac (Published ill_formed) ready =
  (Pending,
   set_ipc [(0%nat, js "zmq-update", js "progress " ++ [Utf8.REPLACEMENT])] ready) /\
  console (@step Sample.builtins Sample.mac ready (Published ill_formed)) = console ready.
Proof. split_all; reflexivity. Qed.

(** C8, as the code has it: every frame the subscriber hands to the
    suspended loop, well-formed or not, is turned into text (with U+FFFD where
    the bytes are not UTF-8) and sent to the window; nothing is logged or
    dropped, and the loop suspends on the next frame. *)
Theorem every_frame_forwarded
  (B : Builtins) (proc : Process) (st : State) (msg : Message) (w : Window) :
  updateLoop st = Awaiting -> closed (sockSub st) = false ->
  matches (sockSub st) (fst msg) = true -> mainWindow st = Some w ->
  handle proc (Published msg) st =
  (Pending,
   set_ipc (ipc st ++ [(w, js "zmq-update", Utf8.toString (fst msg))]) st) /\
  (Utf8.valid (fst msg) = false ->
   In Utf8.REPLACEMENT (Utf8.toString (fst msg))).
Proof.
  intros Hl Hc Hm Hw. split.
  - now apply published_with_window.
  - apply Utf8Facts.invalid_replaced.
Qed.

Lemma every_frame_forwarded_ill_formed :
  updateLoop ready = Awaiting /\ closed (sockSub ready) = false /\
  matches (sockSub ready) (fst ill_formed) = true /\
  mainWindow ready = Some 0%nat /\
  In Utf8.REPLACEMENT (Utf8.toString (fst ill_formed)).
Proof.
  assert (Hl : updateLoop ready = Awaiting) by reflexivity.
  assert (Hc : closed (sockSub ready) = false) by reflexivity.
  assert (Hm : matches (sockSub ready) (fst ill_formed) = true) by reflexivity.
  assert (Hw : mainWindow ready = Some 0%nat) by reflexivity.
  split_all; try assumption.
  apply (proj2 (every_frame_forwarded Sample.builtins Sample.mac ready
                  ill_formed 0%nat Hl Hc Hm Hw)).
  reflexivity.
Defined.

(** C9: a frame that arrives while [mainWindow] is empty leaves the whole
    state as it was: nothing is sent, logged or kept, no handler throws, the
    loop stays suspended, and whatever happens later happens as if the frame
    had not arrived. *)
Theorem frame_without_window_discarded
  (B : Builtins) (proc : Process) (st : State) (msg : Message) :
  mainWindow st = None ->
  step proc st (Published msg) = st /\
  (forall e, fst (handle proc (Published msg) st) <> Throw e) /\
  (forall later, run proc (Published msg :: later) st = run proc later st).
Proof.
  intros Hw. split_all.
  - now apply published_without_window.
  - intros e. apply handle_no_throw.
  - intros later.
    change (run proc (Published msg :: later) st)
      with (run proc later (step proc st (Published msg))).
    now rewrite published_without_window.
Qed.

(** On macOS the app outlives its window. *)
Definition windowless : State :=
  @run Sample.builtins Sample.mac [Ready true; WindowClosed 0%nat] initial.

Lemma frame_without_window_discarded_mac :
  mainWindow windowless = None /\
  updateLoop windowless = Awaiting /\
  ipc (@run Sample.builtins Sample.mac
         [Published (frame "result lost"); Activate; Published (frame "result kept")]
         windowless)
  = [(1%nat, js "zmq-update", js "result kept")].
Proof.
  assert (Hw : mainWindow windowless = None) by reflexivity.
  split; [exact Hw|]. split; [reflexivity|].
  destruct (frame_without_window_discarded Sample.builtins Sample.mac windowless
              (frame "result lost") Hw) as [_ [_ Hlater]].
  rewrite Hlater. reflexivity.
Defined.

End MainFacts.

(** ** From the worker to the log list *)

Module Bridge.
Import JsString Js.

(** The frame [progress {"value": 50}] as the worker publishes it. *)
Definition progress_frame : Main.Message :=
  (Buffer_from ("progress {" ++ MainFacts.dq ++ "value" ++ MainFacts.dq ++ ": 50}"), []).

(** The main process sends the window the frame's text, and the renderer
    logs its topic and payload. *)
Example progress_frame_logged (B : Builtins) :
  Main.ipc (Main.run Sample.mac [Main.Ready true; Main.Published progress_frame]
              Main.initial)
  = [(0%nat, js "zmq-update", js "progress " ++ AppFacts.progress_50)] /\
  App.logs (snd (App.onUpdate (js "progress " ++ AppFacts.progress_50) App.initial))
  = [js "[progress] " ++ AppFacts.progress_50].
Proof.
  split; [reflexivity|].
  rewrite (AppFacts.onUpdate_progress (js "progress " ++ AppFacts.progress_50)
             AppFacts.progress_50 App.initial eq_refl).
  cbn [snd]. now rewrite AppFacts.apply_parsed_logs.
Qed.

End Bridge.

(* ================================================================== *)
(** * Part III: further properties of the code *)
(* ================================================================== *)

(** ** The renderer *)

Module AppExtra.
Import JsString Js App JsStringFacts AppFacts.

Ltac conj_all := repeat match goal with |- _ /\ _ => split end.

Lemma first_separator (sep : code_unit) (s : jsstring) :
  In sep s -> exists t p, s = t ++ sep :: p /\ ~ In sep t.
Proof.
  induction s as [|c s IH]; intros Hin; [contradiction|].
  destruct (Z.eq_dec c sep) as [->|Hne].
  - exists [], s. split; [reflexivity|]. intros [].
  - destruct Hin as [Heq|Hin]; [contradiction|].
    destruct (IH Hin) as [t [p [-> Hnot]]].
    exists (c :: t), p. split; [reflexivity|].
    intros [Heq|Hin']; [now apply Hne|now apply Hnot].
Qed.

(** X1: decoding loses nothing.  The topic never holds a space; a message
    without a space is its own topic with the empty payload; any other
    message is its topic, one space, and its payload. *)
Theorem decode_lossless (msg : jsstring) :
  ~ In SPACE (fst (decode msg)) /\
  ((~ In SPACE msg /\ decode msg = (msg, [])) \/
   (In SPACE msg /\ msg = fst (decode msg) ++ SPACE :: snd (decode msg))).
Proof.
  destruct (in_dec Z.eq_dec SPACE msg) as [Hin|Hnot].
  - destruct (first_separator SPACE msg Hin) as [t [p [-> Ht]]].
    unfold decode. rewrite split_first by assumption. rewrite join_split.
    cbn [fst snd]. split; [exact Ht|]. right. now split.
  - assert (Hd : decode msg = (msg, [])).
    { unfold decode. now rewrite split_none. }
    rewrite Hd. cbn [fst]. split; [exact Hnot|]. left. now split.
Qed.

(** The line the handler adds to the log list. *)
Definition line (msg : jsstring) : jsstring :=
  js "[" ++ fst (decode msg) ++ js "] " ++ snd (decode msg).

Lemma apply_parsed_status (st : State) (r : option json) :
  status (apply_parsed st r) = status st.
Proof.
  destruct r as [[| b | x | s | items | members]|]; try reflexivity.
  cbn [apply_parsed].
  destruct (lookup (js "value") members) as [v|]; [|reflexivity].
  now destruct (ToBoolean v).
Qed.

Section Updates.
Context {B : Builtins}.

(** The handler's result for every message. *)
Lemma onUpdate_state (msg : jsstring) (st : State) :
  onUpdate msg st =
  (Normal tt,
   if jsstring_eq_dec (fst (decode msg)) (js "progress")
   then apply_parsed (logged st (line msg))
          (JSON_parse (parsed_text (snd (decode msg))))
   else logged st (line msg)).
Proof.
  unfold line. destruct (decode msg) as [topic payload] eqn:Hd. cbn [fst snd].
  destruct (jsstring_eq_dec topic (js "progress")) as [->|Hne].
  - now apply onUpdate_progress.
  - now apply onUpdate_other.
Qed.

Lemma onUpdate_appends_one_line_aux (msg : jsstring) (st : State) :
  logs (snd (onUpdate msg st)) = logs st ++ [line msg] /\
  status (snd (onUpdate msg st)) = status st.
Proof.
  rewrite onUpdate_state. cbn [snd].
  destruct (jsstring_eq_dec (fst (decode msg)) (js "progress")) as [He|Hne].
  - rewrite apply_parsed_logs, apply_parsed_status. now split.
  - now split.
Qed.

(** X2: every message, whatever its topic and payload, adds exactly one
    line [[topic] payload] at the end of the log list and leaves the status
    alone; a message whose topic is not [progress] changes nothing else. *)
Theorem onUpdate_appends_one_line (msg : jsstring) (st : State) :
  exists st',
    onUpdate msg st = (Normal tt, st') /\
    logs st' = logs st ++ [line msg] /\
    status st' = status st /\
    (fst (decode msg) <> js "progress" ->
     progress st' = progress st /\ console st' = console st).
Proof.
  eexists. split; [apply onUpdate_state|].
  destruct (jsstring_eq_dec (fst (decode msg)) (js "progress")) as [He|Hne].
  - rewrite apply_parsed_logs, apply_parsed_status.
    conj_all; try reflexivity. intros Hne. contradiction.
  - conj_all; try reflexivity. intros _. now split.
Qed.

(** X3: the progress state changes only when the altered payload parses to
    an object whose [value] is truthy, and then it becomes that value, of
    whatever type; a falsy [value], such as the number 0, is ignored. *)
Theorem progress_set_only_by_truthy_value (msg : jsstring) (st : State) :
  let st' := snd (onUpdate msg st) in
  let parsed := JSON_parse (parsed_text (snd (decode msg))) in
  (progress st' = progress st \/
   exists members v,
     fst (decode msg) = js "progress" /\
     parsed = Some (JObject members) /\
     lookup (js "value") members = Some v /\
     ToBoolean v = true /\ progress st' = v) /\
  (forall members v,
      fst (decode msg) = js "progress" ->
      parsed = Some (JObject members) ->
      lookup (js "value") members = Some v ->
      progress st' = if ToBoolean v then v else progress st) /\
  (forall members,
      parsed = Some (JObject members) ->
      lookup (js "value") members = Some (JNumber 0%float) ->
      progress st' = progress st).
Proof.
  cbv zeta. rewrite onUpdate_state. cbn [snd].
  destruct (jsstring_eq_dec (fst (decode msg)) (js "progress")) as [He|Hne].
  - conj_all.
    + destruct (JSON_parse (parsed_text (snd (decode msg))))
        as [[| b | x | s | items | members]|]; try (now left).
      cbn [apply_parsed].
      destruct (lookup (js "value") members) as [v|] eqn:Hv; [|now left].
      destruct (ToBoolean v) eqn:Ht; [|now left].
      right. exists members, v. now conj_all.
    + intros members v _ -> Hv. cbn [apply_parsed]. rewrite Hv.
      now destruct (ToBoolean v).
    + intros members -> Hv. cbn [apply_parsed]. now rewrite Hv.
  - conj_all.
    + now left.
    + intros members v Ht. contradiction.
    + intros members _ _. reflexivity.
Qed.

(** X4: the handler writes to the console exactly when the topic is
    [progress] and the altered payload does not parse (a SyntaxError) or
    parses to [null] (a TypeError); any other parsed value, with or without a
    [value] member, is taken silently. *)
Theorem console_error_only_on_failed_parse (msg : jsstring) (st : State) :
  let st' := snd (onUpdate msg st) in
  let parsed := JSON_parse (parsed_text (snd (decode msg))) in
  (fst (decode msg) = js "progress" -> parsed = None ->
   console st' = console st ++ [console_error (js "JSON Parse Error") SyntaxError]) /\
  (fst (decode msg) = js "progress" -> parsed = Some JNull ->
   console st' = console st ++ [console_error (js "JSON Parse Error") TypeError]) /\
  (forall v, parsed = Some v -> v <> JNull -> console st' = console st) /\
  (fst (decode msg) <> js "progress" -> console st' = console st).
Proof.
  cbv zeta. rewrite onUpdate_state. cbn [snd].
  destruct (jsstring_eq_dec (fst (decode msg)) (js "progress")) as [He|Hne].
  - conj_all.
    + intros _ ->. reflexivity.
    + intros _ ->. reflexivity.
    + intros v -> Hv.
      destruct v as [| b | x | s | items | members]; try reflexivity.
      * contradiction.
      * cbn [apply_parsed].
        destruct (lookup (js "value") members) as [u|]; [|reflexivity].
        now destruct (ToBoolean u).
    + intros Hne. contradiction.
  - conj_all; try (intros Ht; contradiction); reflexivity.
Qed.

(** The renderer after a sequence of updates. *)
Definition updates (msgs : list jsstring) (st : State) : State :=
  fold_left (fun s msg => snd (onUpdate msg s)) msgs st.

Lemma updates_logs (msgs : list jsstring) (st : State) :
  logs (updates msgs st) = logs st ++ map line msgs /\
  status (updates msgs st) = status st.
Proof.
  revert st. induction msgs as [|msg msgs IH]; intros st.
  - cbn. now rewrite app_nil_r.
  - destruct (onUpdate_appends_one_line_aux msg st) as [Hl Hs].
    cbn [updates fold_left map]. fold (updates msgs (snd (onUpdate msg st))).
    destruct (IH (snd (onUpdate msg st))) as [Hl' Hs'].
    rewrite Hl', Hs', Hl, Hs. now rewrite <- app_assoc.
Qed.

(** X5: the log list holds one line per update, in the order of arrival,
    after the lines it held before; updates never touch the status. *)
Theorem updates_logged_in_order (msgs : list jsstring) (st : State) :
  logs (updates msgs st) = logs st ++ map line msgs /\
  status (updates msgs st) = status st.
Proof.
  destruct (updates_logs msgs st) as [Hlogs Hstatus]. now split.
Qed.

(** X6: [handleStart].  It clears the log list and the progress before it
    asks; when the request resolves the status shows the reply; when it
    rejects, nothing catches the error and the status stays at
    [Requesting...]; while it is pending the status stays there too.  The
    updates that arrive between the request and its reply are kept: the log
    list then holds exactly their lines. *)
Theorem handleStart_outcomes (sendJob : settled jsstring) (between : list jsstring) (st : State) :
  let asked := snd (handleStart_request st) in
  (status asked = js "Requesting..." /\ logs asked = [] /\
   progress asked = JNumber 0%float /\ console asked = console st) /\
  (forall reply, sendJob = Resolved reply ->
      handleStart sendJob st = handleStart_reply reply asked /\
      fst (handleStart sendJob st) = Normal tt /\
      status (snd (handleStart sendJob st)) = js "Backend Reply: " ++ reply) /\
  (forall e, sendJob = Rejected e -> handleStart sendJob st = (Throw e, asked)) /\
  (sendJob = Never -> handleStart sendJob st = (Pending, asked)) /\
  (forall reply,
      let answered := snd (handleStart_reply reply (updates between asked)) in
      status answered = js "Backend Reply: " ++ reply /\
      logs answered = map line between /\
      progress answered = progress (updates between asked)).
Proof.
  cbv zeta. conj_all; try reflexivity.
  - intros reply ->. now conj_all.
  - now intros e ->.
  - now intros ->.
  - intros reply. conj_all; try reflexivity.
    cbn. now rewrite (proj1 (updates_logs between _)).
Qed.

End Updates.

End AppExtra.

(** ** The main process *)

Module MainExtra.
Import JsString Js Main MainFacts.

#[local] Arguments js : simpl never.
#[local] Arguments Buffer_from : simpl never.
#[local] Arguments Utf8.toString : simpl never.
#[local] Arguments starts_with : simpl never.
#[local] Arguments matches : simpl never.

Definition REQ_ENDPOINT : jsstring := js "tcp://127.0.0.1:5555".
Definition SUB_ENDPOINT : jsstring := js "tcp://127.0.0.1:5556".

(** No [whenReady] among the events: it resolves once, at startup. *)
Definition no_ready (evs : list Event) : Prop :=
  forall launched, ~ In (Ready launched) evs.

Lemma no_ready_cons (ev : Event) (evs : list Event) :
  no_ready (ev :: evs) -> (forall l, ev <> Ready l) /\ no_ready evs.
Proof.
  intros Hno. split.
  - intros l ->. apply (Hno l). now left.
  - intros l Hin. apply (Hno l). now right.
Qed.

(** [mainWindow] is the one open window, or there is none. *)
Definition one_window (st : State) : Prop :=
  openWindows st = match mainWindow st with Some w => [w] | None => [] end.

Section Session.
Context {B : Builtins}.
Variable proc : Process.

(** The launch parameters of the development mode. *)
Definition script : jsstring :=
  path_join [dirname proc; js ".."; js "py_backend"; js "backend.py"].

Definition interpreter : jsstring :=
  if on_win32 proc then js "python" else js "python3".

(** X7: [startPythonBackend] always launches the interpreter on the script,
    whatever the deployment mode: the same launch as [startBackend] in
    development, and not the one [startBackend] makes when packaged (which
    passes no argument). *)
Theorem startPythonBackend_development_launch (launched : bool) (st : State) :
  startPythonBackend proc launched st =
  (Normal tt,
   set_pythonProcess (Some (spawn launched interpreter [script]))
     (set_console
        (console st ++ [console_log (js "[Electron] Launching Python from: " ++ script)])
        st)) /\
  (isPackaged proc = false ->
   pythonProcess (snd (startPythonBackend proc launched st)) =
   pythonProcess (snd (startBackend proc launched st))) /\
  (isPackaged proc = true ->
   option_map spawn_args (pythonProcess (snd (startBackend proc launched st))) = Some [] /\
   option_map spawn_args (pythonProcess (snd (startPythonBackend proc launched st)))
   = Some [script]).
Proof.
  split_all.
  - reflexivity.
  - intros Hp. unfold startPythonBackend, startBackend, log. unfold_js.
    rewrite Hp. reflexivity.
  - intros Hp. unfold startPythonBackend, startBackend, log. unfold_js.
    rewrite Hp. now split.
Qed.

Lemma run_ready (launched : bool) :
  let st := run proc [Ready launched] initial in
  (exists p, pythonProcess st = Some p /\ has_handle p = launched /\
             killed p = false /\ sigterm p = 0%nat) /\
  sockReq st = {| endpoints := [REQ_ENDPOINT]; subscriptions := []; closed := false |} /\
  sockSub st = {| endpoints := [SUB_ENDPOINT]; subscriptions := [PROGRESS; RESULT];
                  closed := false |} /\
  updateLoop st = Awaiting /\
  mainWindow st = Some 0%nat /\ openWindows st = [0%nat] /\
  ipc st = [] /\
  (forall label err, ~ In (console_error label err) (console st)).
Proof.
  cbv zeta. unfold run, step, handle, whenReady. cbn [fold_left].
  unfold startBackend, log. unfold_js.
  destruct (isPackaged proc); cbn; split_all; try reflexivity;
    try (eexists; split_all; reflexivity);
    intros label err Hin; repeat (destruct Hin as [Hin|Hin]; [discriminate|]);
    contradiction.
Qed.

(** X8: startup.  Whatever the mode and the platform, once [whenReady] has
    run on the fresh process the worker is spawned, both sockets are open and
    connected to their endpoints, the subscriber holds the two prefixes in
    order, the loop is suspended on its first message, window 0 is open and
    is [mainWindow], and no error has been logged and nothing sent yet. *)
Theorem startup_state (launched : bool) :
  let st := run proc [Ready launched] initial in
  (exists p, pythonProcess st = Some p /\ has_handle p = launched /\
             killed p = false /\ sigterm p = 0%nat) /\
  sockReq st = {| endpoints := [REQ_ENDPOINT]; subscriptions := []; closed := false |} /\
  sockSub st = {| endpoints := [SUB_ENDPOINT]; subscriptions := [PROGRESS; RESULT];
                  closed := false |} /\
  updateLoop st = Awaiting /\
  mainWindow st = Some 0%nat /\ openWindows st = [0%nat] /\
  ipc st = [] /\
  (forall label err, ~ In (console_error label err) (console st)).
Proof.
  exact (run_ready launched).
Qed.

(** *** Windows *)

Lemma step_one_window (st : State) (ev : Event) :
  one_window st -> (forall l, ev <> Ready l) -> one_window (step proc st ev).
Proof.
  unfold one_window. intros Hone Hev. open_state st. cbn in Hone. subst.
  destruct ev; try (now (exfalso; eapply Hev)); run_handler; try reflexivity;
    repeat match goal with
           | H : context [Nat.eqb ?a ?b] |- _ =>
               destruct (Nat.eqb_spec a b); subst; cbn in H
           end;
    congruence.
Qed.

(** X9: between startup and the end of the session there is never more
    than one window, and [mainWindow] is exactly the open one: empty when none
    is open, and never a window that was closed. *)
Theorem one_window_at_a_time (launched : bool) (evs : list Event) :
  no_ready evs ->
  let st := run proc (Ready launched :: evs) initial in
  one_window st /\ (List.length (openWindows st) <= 1)%nat.
Proof.
  intros Hno. cbv zeta.
  assert (Hone : one_window (run proc (Ready launched :: evs) initial)).
  { change (run proc (Ready launched :: evs) initial)
      with (run proc evs (run proc [Ready launched] initial)).
    assert (Hstart : one_window (run proc [Ready launched] initial)).
    { destruct (run_ready launched) as [_ [_ [_ [_ [Hw [Ho _]]]]]].
      unfold one_window. now rewrite Hw, Ho. }
    revert Hstart Hno. generalize (run proc [Ready launched] initial).
    induction evs as [|ev evs IH]; intros st Hst Hno; [exact Hst|].
    destruct (no_ready_cons ev evs Hno) as [Hev Hno'].
    change (run proc (ev :: evs) st) with (run proc evs (step proc st ev)).
    apply IH; [|exact Hno']. now apply step_one_window. }
  split; [exact Hone|]. unfold one_window in Hone. rewrite Hone.
  destruct (mainWindow _); cbn; lia.
Qed.

(** *** The worker *)

(** The same worker, possibly signalled since. *)
Definition same_worker (p p' : ChildProcess) : Prop :=
  spawn_cmd p' = spawn_cmd p /\ spawn_args p' = spawn_args p /\
  (sigterm p <= sigterm p')%nat /\
  (has_handle p = false -> p' = p).

Lemma same_worker_refl (p : ChildProcess) : same_worker p p.
Proof. unfold same_worker. split_all; auto. Qed.

Lemma same_worker_trans (p q r : ChildProcess) :
  same_worker p q -> same_worker q r -> same_worker p r.
Proof.
  intros [Hc [Ha [Hs He]]] [Hc' [Ha' [Hs' He']]]. unfold same_worker. split_all.
  - congruence.
  - congruence.
  - lia.
  - intros Hh. specialize (He Hh). subst q. now apply He'.
Qed.

Lemma same_worker_kill (p : ChildProcess) : same_worker p (kill p).
Proof.
  unfold same_worker, kill. destruct (has_handle p) eqn:Hh; cbn; split_all; auto.
  discriminate.
Qed.

Lemma same_worker_exited (p : ChildProcess) : same_worker p (exited p).
Proof.
  unfold same_worker, exited. cbn. split_all; auto.
  intros Hh. destruct p; cbn in *. now subst.
Qed.

Lemma step_worker (st : State) (ev : Event) (p : ChildProcess) :
  pythonProcess st = Some p -> (forall l, ev <> Ready l) ->
  exists p', pythonProcess (step proc st ev) = Some p' /\ same_worker p p'.
Proof.
  intros Hp Hev. open_state st. cbn in Hp. subst.
  destruct ev; try (now (exfalso; eapply Hev));
    run_handler;
    first [ now (eexists; split; [reflexivity|apply same_worker_refl])
          | now (eexists; split; [reflexivity|apply same_worker_kill])
          | now (eexists; split; [reflexivity|apply same_worker_exited]) ].
Qed.

Lemma step_no_worker (st : State) (ev : Event) :
  pythonProcess st = None -> (forall l, ev <> Ready l) ->
  pythonProcess (step proc st ev) = None.
Proof.
  intros Hp Hev. open_state st. cbn in Hp. subst.
  destruct ev; try (now (exfalso; eapply Hev)); run_handler; reflexivity.
Qed.

(** X10: the worker is spawned at startup and never again.  Whatever
    happens after it, [pythonProcess] still holds the worker that was spawned,
    with the command and the arguments it was launched with; it is never
    cleared and never replaced, also after the worker has exited; and once the
    worker has exited nothing signals it any more.  Without a worker, none
    appears. *)
Theorem worker_never_respawned (st : State) (evs : list Event) :
  no_ready evs ->
  (forall p, pythonProcess st = Some p ->
             exists p', pythonProcess (run proc evs st) = Some p' /\ same_worker p p') /\
  (pythonProcess st = None -> pythonProcess (run proc evs st) = None).
Proof.
  revert st. induction evs as [|ev evs IH]; intros st Hno.
  - split; [|auto]. intros p Hp. exists p. split; [exact Hp|apply same_worker_refl].
  - destruct (no_ready_cons ev evs Hno) as [Hev Hno'].
    change (run proc (ev :: evs) st) with (run proc evs (step proc st ev)).
    destruct (IH (step proc st ev) Hno') as [IHsome IHnone]. split.
    + intros p Hp. destruct (step_worker st ev p Hp Hev) as [q [Hq Hpq]].
      destruct (IHsome q Hq) as [r [Hr Hqr]].
      exists r. split; [exact Hr|]. now apply (same_worker_trans p q r).
    + intros Hp. apply IHnone. now apply step_no_worker.
Qed.

(** *** The sockets *)

Lemma step_sockets (st : State) (ev : Event) :
  (forall l, ev <> Ready l) ->
  endpoints (sockReq (step proc st ev)) = endpoints (sockReq st) /\
  subscriptions (sockReq (step proc st ev)) = subscriptions (sockReq st) /\
  endpoints (sockSub (step proc st ev)) = endpoints (sockSub st) /\
  subscriptions (sockSub (step proc st ev)) = subscriptions (sockSub st).
Proof.
  intros Hev. open_state st.
  destruct ev; try (now (exfalso; eapply Hev)); run_handler; now split_all.
Qed.

Lemma step_closed (st : State) (ev : Event) :
  (closed (sockReq st) = true -> closed (sockReq (step proc st ev)) = true) /\
  (closed (sockSub st) = true -> closed (sockSub (step proc st ev)) = true).
Proof.
  open_state st. destruct ev; run_handler; split; intros Hc; cbn in *; congruence.
Qed.

(** X11: the sockets are configured once.  After startup, whatever happens,
    the request socket is connected to port 5555 only and has no
    subscription, the subscriber is connected to port 5556 only and holds
    exactly the prefixes [progress] and [result]. *)
Theorem sockets_configured_once (launched : bool) (evs : list Event) :
  no_ready evs ->
  let st := run proc (Ready launched :: evs) initial in
  endpoints (sockReq st) = [REQ_ENDPOINT] /\ subscriptions (sockReq st) = [] /\
  endpoints (sockSub st) = [SUB_ENDPOINT] /\
  subscriptions (sockSub st) = [PROGRESS; RESULT].
Proof.
  intros Hno. cbv zeta.
  change (run proc (Ready launched :: evs) initial)
    with (run proc evs (run proc [Ready launched] initial)).
  destruct (run_ready launched) as [_ [Hreq [Hsub _]]].
  assert (Hstart :
    endpoints (sockReq (run proc [Ready launched] initial)) = [REQ_ENDPOINT] /\
    subscriptions (sockReq (run proc [Ready launched] initial)) = [] /\
    endpoints (sockSub (run proc [Ready launched] initial)) = [SUB_ENDPOINT] /\
    subscriptions (sockSub (run proc [Ready launched] initial)) = [PROGRESS; RESULT]).
  { rewrite Hreq, Hsub. now split_all. }
  clear Hreq Hsub. revert Hstart Hno.
  generalize (run proc [Ready launched] initial).
  induction evs as [|ev evs IH]; intros st Hst Hno; [exact Hst|].
  destruct (no_ready_cons ev evs Hno) as [Hev Hno'].
  change (run proc (ev :: evs) st) with (run proc evs (step proc st ev)).
  apply IH; [|exact Hno'].
  destruct (step_sockets st ev Hev) as [H1 [H2 [H3 H4]]].
  destruct Hst as [G1 [G2 [G3 G4]]].
  rewrite H1, H2, H3, H4. now split_all.
Qed.

Lemma step_closed_ipc (st : State) (ev : Event) :
  closed (sockSub st) = true -> ipc (step proc st ev) = ipc st.
Proof.
  intros Hc. destruct (step_ipc proc st ev) as [Hsame|[msg [w [_ [Hopen _]]]]];
    [exact Hsame|congruence].
Qed.

(** X12: a closed socket stays closed, and once the subscriber is closed no
    window is sent anything any more, whatever happens afterwards; in
    particular nothing is delivered after a quit. *)
Theorem nothing_delivered_after_close (st : State) (evs : list Event) :
  (closed (sockReq st) = true -> closed (sockReq (run proc evs st)) = true) /\
  (closed (sockSub st) = true ->
   closed (sockSub (run proc evs st)) = true /\ ipc (run proc evs st) = ipc st) /\
  ipc (run proc (Quit :: evs) st) = ipc st.
Proof.
  assert (Hgen : forall evs st,
    (closed (sockReq st) = true -> closed (sockReq (run proc evs st)) = true) /\
    (closed (sockSub st) = true ->
     closed (sockSub (run proc evs st)) = true /\ ipc (run proc evs st) = ipc st)).
  { clear st evs. induction evs as [|ev evs IH]; intros st; [now split_all|].
    change (run proc (ev :: evs) st) with (run proc evs (step proc st ev)).
    destruct (IH (step proc st ev)) as [IHreq IHsub].
    destruct (step_closed st ev) as [Hreq Hsub]. split.
    - intros Hc. auto.
    - intros Hc. destruct (IHsub (Hsub Hc)) as [Hc' Hi'].
      split; [exact Hc'|]. rewrite Hi'. now apply step_closed_ipc. }
  destruct (Hgen evs st) as [Hreq Hsub]. split_all; [exact Hreq|exact Hsub|].
  change (run proc (Quit :: evs) st) with (run proc evs (step proc st Quit)).
  assert (Hq : closed (sockSub (step proc st Quit)) = true
               /\ ipc (step proc st Quit) = ipc st).
  { open_state st. run_handler; now split. }
  destruct Hq as [Hc Hi].
  destruct (Hgen evs (step proc st Quit)) as [_ Hsub'].
  destruct (Hsub' Hc) as [_ Hi']. now rewrite Hi'.
Qed.

(** *** Delivery *)

Definition update_message (w : Window) (msg : Message) : Window * jsstring * jsstring :=
  (w, js "zmq-update", Utf8.toString (fst msg)).

Lemma set_ipc_set_ipc (i j : list (Window * jsstring * jsstring)) (st : State) :
  set_ipc j (set_ipc i st) = set_ipc j st.
Proof. reflexivity. Qed.

Lemma set_ipc_same (st : State) : set_ipc (ipc st) st = st.
Proof. now destruct st. Qed.

(** X13: with the loop suspended, the subscriber open and a window present,
    a burst of published messages is forwarded exactly as filtered: each
    message whose first frame passes the subscription is sent once, as the
    text of that first frame alone, in the order of publication, and nothing
    else in the state changes. *)
Theorem burst_forwarded_in_order (st : State) (w : Window) (msgs : list Message) :
  updateLoop st = Awaiting -> closed (sockSub st) = false ->
  mainWindow st = Some w ->
  run proc (map Published msgs) st =
  set_ipc
    (ipc st ++
     map (update_message w)
       (filter (fun msg => matches (sockSub st) (fst msg)) msgs))
    st.
Proof.
  revert st. induction msgs as [|msg msgs IH]; intros st Hl Hc Hw.
  - cbn. rewrite app_nil_r. now rewrite set_ipc_same.
  - cbn [map filter].
    change (run proc (Published msg :: map Published msgs) st)
      with (run proc (map Published msgs) (step proc st (Published msg))).
    destruct (matches (sockSub st) (fst msg)) eqn:Hm.
    + unfold step. rewrite (published_with_window proc st msg w Hl Hc Hm Hw).
      cbn [snd]. rewrite IH; [|now destruct st..].
      replace (sockSub (set_ipc _ st)) with (sockSub st) by now destruct st.
      rewrite set_ipc_set_ipc. cbn [map].
      change (ipc (set_ipc ?i st)) with i. now rewrite <- app_assoc.
    + assert (Hs : step proc st (Published msg) = st).
      { open_state st. cbn in Hl, Hc, Hw, Hm. subst.
        unfold step, handle, deliver. cbn. now rewrite Hm. }
      rewrite Hs. now apply IH.
Qed.

Lemma byte_is_space (b : byte) : byte_to_Z b = SPACE -> b = x20.
Proof. destruct b; vm_compute; intros H; first [reflexivity | discriminate H]. Qed.

Lemma chars_without_space (t : Buffer) :
  ~ In x20 t -> ~ In SPACE (map byte_to_Z t).
Proof.
  intros Hnot Hin. apply in_map_iff in Hin. destruct Hin as [b [Hb Hin]].
  apply byte_is_space in Hb. now subst.
Qed.

(** X14: an ASCII frame crosses the bridge unaltered.  The window is sent
    the frame's bytes as characters, and for a frame made of a topic without
    a space, a space and a payload, the renderer finds back exactly that topic
    and that payload. *)
Theorem ascii_frame_forwarded_verbatim
  (st : State) (w : Window) (topic payload : Buffer) (rest : list Buffer) :
  mainWindow st = Some w ->
  (forall b, In b (topic ++ x20 :: payload) -> byte_to_Z b <= 0x7F) ->
  ~ In x20 topic ->
  forward (topic ++ x20 :: payload, rest) st =
  (Normal tt,
   set_ipc (ipc st ++ [(w, js "zmq-update", map byte_to_Z (topic ++ x20 :: payload))]) st) /\
  App.decode (map byte_to_Z (topic ++ x20 :: payload)) =
  (map byte_to_Z topic, map byte_to_Z payload).
Proof.
  intros Hw Hascii Hnot. split.
  - unfold forward. unfold_js. rewrite Hw. unfold webContents_send. unfold_js.
    cbn [fst]. now rewrite (Utf8Facts.toString_ascii _ Hascii).
  - rewrite map_app. cbn [map]. change (byte_to_Z x20) with SPACE.
    unfold App.decode.
    rewrite JsStringFacts.split_first by now apply chars_without_space.
    now rewrite JsStringFacts.join_split.
Qed.

(** *** Quitting *)

(** X15: a quit is silent and final.  It signals the worker if the runtime
    still holds it, closes both sockets, and ends a suspended loop without
    logging any error; it sends nothing to the window and leaves [mainWindow]
    as it is. *)
Theorem quit_is_silent (st : State) :
  let st' := step proc st Quit in
  pythonProcess st' = option_map kill (pythonProcess st) /\
  closed (sockReq st') = true /\ closed (sockSub st') = true /\
  (updateLoop st = Awaiting -> updateLoop st' = Returned) /\
  (updateLoop st <> Awaiting -> updateLoop st' = updateLoop st) /\
  console st' = console st /\ ipc st' = ipc st /\
  mainWindow st' = mainWindow st /\ openWindows st' = openWindows st.
Proof.
  cbv zeta. open_state st. run_handler; split_all; try reflexivity;
    try discriminate; intros Hl; congruence.
Qed.

(** X16: closing the only window.  On macOS the app stays as it is, only
    without a window; on every other platform the app quits: the worker is
    signalled, both sockets are closed and the loop is no longer suspended.
    Either way [mainWindow] is cleared. *)
Theorem closing_the_only_window (st : State) (w : Window) :
  openWindows st = [w] ->
  let st' := step proc st (WindowClosed w) in
  mainWindow st' = None /\ openWindows st' = [] /\
  (platform proc = js "darwin" ->
   st' = set_mainWindow None (set_windows [] (nextWindow st) st)) /\
  (platform proc <> js "darwin" ->
   pythonProcess st' = option_map kill (pythonProcess st) /\
   closed (sockReq st') = true /\ closed (sockSub st') = true /\
   updateLoop st' <> Awaiting).
Proof.
  intros Ho. cbv zeta. open_state st. cbn in Ho. subst.
  unfold step, handle. unfold_js. cbn [openWindows existsb].
  rewrite Nat.eqb_refl. cbn [orb]. unfold remove_window. cbn [filter].
  rewrite Nat.eqb_refl. cbn [negb].
  run_handler; split_all; try reflexivity; try discriminate;
    intros Hp; try reflexivity; try contradiction; split_all;
    try reflexivity; discriminate.
Qed.

(** *** The command handler *)

(** X17: the command handler touches nothing but the console: it logs the
    command first and at most one error after it, and leaves the sockets'
    state, the loop, the windows and the worker alone.  An empty reply is
    answered like a failure; while the worker does not answer the handler
    stays suspended with only the command logged. *)
Theorem send_command_only_logs (command : jsstring) (rt : RoundTrip) (st : State) :
  let sent := console_log (js "[Electron] Sending command to Python: " ++ command) in
  (exists entries,
      snd (send_command command rt st) =
      set_console (console st ++ sent :: entries) st /\
      (List.length entries <= 1)%nat) /\
  (send_result rt = Resolved tt -> receive_result rt = Resolved [] ->
   send_command command rt st =
   (Normal error_reply,
    set_console
      (console st ++ [sent; console_error (js "ZMQ Send Error:") (Some TypeError)]) st)) /\
  (send_result rt = Never \/
   (send_result rt = Resolved tt /\ receive_result rt = Never) ->
   send_command command rt st = (Pending, set_console (console st ++ [sent]) st)).
Proof.
  cbv zeta. destruct rt as [sent received]. cbn [send_result receive_result].
  split_all.
  - destruct sent as [[]|e|]; [destruct received as [[|reply more]|e|]| |];
      unfold_main; cbn;
      first [ exists []; split; [reflexivity|cbn; lia]
            | eexists [_]; split; [now rewrite <- app_assoc|cbn; lia] ].
  - intros -> ->. unfold_main. cbn. now rewrite <- app_assoc.
  - intros [->|[-> ->]]; reflexivity.
Qed.

(** *** What was logged and sent *)

Definition is_published (ev : Event) : bool :=
  match ev with Published _ => true | _ => false end.

Lemma step_console (st : State) (ev : Event) :
  exists entries, console (step proc st ev) = console st ++ entries.
Proof.
  open_state st. destruct ev; run_handler; repeat rewrite <- app_assoc;
    first [ now (exists []; rewrite app_nil_r) | now eexists ].
Qed.

(** X18: the console and the record of what the windows were sent only ever
    grow at their end, and the windows are sent at most one message per
    published message. *)
Theorem history_append_only (st : State) (evs : list Event) :
  exists entries sent,
    console (run proc evs st) = console st ++ entries /\
    ipc (run proc evs st) = ipc st ++ sent /\
    (List.length sent <= List.length (filter is_published evs))%nat.
Proof.
  revert st. induction evs as [|ev evs IH]; intros st.
  - exists [], []. cbn. rewrite !app_nil_r. split_all; auto.
  - change (run proc (ev :: evs) st) with (run proc evs (step proc st ev)).
    destruct (IH (step proc st ev)) as [entries [sent [Hc [Hi Hn]]]].
    destruct (step_console st ev) as [c Hc'].
    destruct (step_ipc proc st ev) as [Hsame|[msg [w [-> [_ [_ [_ [_ Hnew]]]]]]]].
    + exists (c ++ entries), sent. rewrite Hc, Hc', Hi, Hsame.
      split_all; [now rewrite app_assoc|reflexivity|].
      cbn [filter]. destruct (is_published ev); cbn; lia.
    + eexists (c ++ entries), (_ :: sent). rewrite Hc, Hc', Hi, Hnew.
      split_all; [now rewrite app_assoc|now rewrite <- app_assoc|].
      cbn. lia.
Qed.

End Session.

(** *** The properties at work on the sample runtime *)

Ltac no_ready_here :=
  let l := fresh "l" in
  let Hin := fresh "Hin" in
  intros l Hin; cbn in Hin;
  repeat (destruct Hin as [Hin|Hin]; [discriminate Hin|]);
  contradiction.

(** The window is closed, the app is activated twice, a message comes. *)
Definition reopened : list Event :=
  [WindowClosed 0%nat; Activate; Activate; Published (frame "result done")].

Lemma one_window_at_a_time_reopened :
  no_ready reopened /\
  one_window (@run Sample.builtins Sample.mac (Ready true :: reopened) initial) /\
  (List.length
     (openWindows (@run Sample.builtins Sample.mac (Ready true :: reopened) initial))
   <= 1)%nat.
Proof.
  assert (Hno : no_ready reopened) by no_ready_here.
  split; [exact Hno|].
  exact (@one_window_at_a_time Sample.builtins Sample.mac true reopened Hno).
Defined.

(** The app quits, the worker exits, the app quits again. *)
Definition quit_twice : list Event := [Quit; ChildExit; Quit].

Lemma worker_never_respawned_quit_twice :
  no_ready quit_twice /\
  exists p',
    pythonProcess (@run Sample.builtins Sample.mac quit_twice ready) = Some p' /\
    same_worker
      (spawn true (js "python3")
         [Sample.slash_join [js "/opt/app/electron"; js ".."; js "py_backend";
                              js "backend.py"]])
      p'.
Proof.
  assert (Hno : no_ready quit_twice) by no_ready_here.
  split; [exact Hno|].
  apply (proj1 (@worker_never_respawned Sample.builtins Sample.mac ready quit_twice Hno)).
  reflexivity.
Defined.

Lemma sockets_configured_once_reopened :
  no_ready reopened /\
  subscriptions
    (sockSub (@run Sample.builtins Sample.mac (Ready true :: reopened) initial))
  = [PROGRESS; RESULT].
Proof.
  assert (Hno : no_ready reopened) by no_ready_here.
  split; [exact Hno|].
  exact (proj2 (proj2 (proj2
           (@sockets_configured_once Sample.builtins Sample.mac true reopened Hno)))).
Defined.

(** Three messages in a row; the second is under no subscribed prefix. *)
Definition burst : list Message :=
  [frame "progress 1"; frame "debug 2"; frame "result 3"].

Lemma burst_forwarded_in_order_ready :
  updateLoop ready = Awaiting /\ closed (sockSub ready) = false /\
  mainWindow ready = Some 0%nat /\
  ipc (@run Sample.builtins Sample.mac (map Published burst) ready)
  = [(0%nat, js "zmq-update", js "progress 1");
     (0%nat, js "zmq-update", js "result 3")].
Proof.
  assert (Hl : updateLoop ready = Awaiting) by reflexivity.
  assert (Hc : closed (sockSub ready) = false) by reflexivity.
  assert (Hw : mainWindow ready = Some 0%nat) by reflexivity.
  split_all; try assumption.
  rewrite (@burst_forwarded_in_order Sample.builtins Sample.mac ready 0%nat burst Hl Hc Hw).
  reflexivity.
Defined.

Lemma ascii_frame_forwarded_verbatim_result :
  mainWindow ready = Some 0%nat /\
  ~ In x20 (Buffer_from "result") /\
  App.decode (map byte_to_Z (Buffer_from "result" ++ x20 :: Buffer_from "all done"))
  = (js "result", js "all done").
Proof.
  assert (Hw : mainWindow ready = Some 0%nat) by reflexivity.
  assert (Hnot : ~ In x20 (Buffer_from "result")).
  { intros Hin. cbn in Hin.
    repeat (destruct Hin as [Hin|Hin]; [discriminate Hin|]). contradiction. }
  assert (Hascii : forall b,
             In b (Buffer_from "result" ++ x20 :: Buffer_from "all done") ->
             byte_to_Z b <= 0x7F).
  { intros b Hin. cbn in Hin.
    repeat (destruct Hin as [<-|Hin]; [now vm_compute|]). contradiction. }
  split_all; try assumption.
  exact (proj2 (ascii_frame_forwarded_verbatim ready 0%nat (Buffer_from "result")
                  (Buffer_from "all done") [] Hw Hascii Hnot)).
Defined.

(** A packaged app on Linux. *)
Definition linux : Process :=
  {| isPackaged := true; platform := js "linux";
     resourcesPath := js "/opt/app/resources";
     dirname := js "/opt/app/resources/app.asar/electron" |}.

Lemma closing_the_only_window_linux :
  openWindows (@run Sample.builtins linux [Ready true] initial) = [0%nat] /\
  closed (sockSub (@step Sample.builtins linux
                     (@run Sample.builtins linux [Ready true] initial)
                     (WindowClosed 0%nat))) = true /\
  option_map sigterm
    (pythonProcess (@step Sample.builtins linux
                      (@run Sample.builtins linux [Ready true] initial)
                      (WindowClosed 0%nat))) = Some 1%nat.
Proof.
  assert (Ho : openWindows (@run Sample.builtins linux [Ready true] initial) = [0%nat])
    by reflexivity.
  split; [exact Ho|].
  destruct (@closing_the_only_window Sample.builtins linux _ 0%nat Ho)
    as [_ [_ [_ Hquit]]].
  destruct Hquit as [Hp [_ [Hc _]]]; [discriminate|].
  split; [exact Hc|]. rewrite Hp. reflexivity.
Defined.

End MainExtra.
